(** * Drone flight data generator: trajectory and profile synthesis

    A shallow embedding of the core of [drone_flight_generator.py]: the
    geodetic offset helper, the four profiles (speed, altitude, gimbal,
    zoom), the four path generators and [generate_entries].

    Numbers.  Python [int]s are [Z].  Python [float]s are read as real
    numbers ([R]): rounding error, NaN and the infinities are outside the
    model.  What the interpreter does on top of the arithmetic is kept:
    a float division or [%] by zero raises [ZeroDivisionError], [%] takes
    the sign of the divisor, [round] rounds half to even, [//] floors.

    Effects.  Exceptions are the [Raise] branch of [result]; the one
    impure operation, [datetime.datetime.now()], reads a [World].

    Limits.  A value the program rounds to decimals ([round], the
    microseconds of a [timedelta]) is rounded here from the exact real, so
    the two can fall on different sides of a decimal tie; the statements on
    such values that are meant of the program bound them instead of fixing
    them.  The cosine of a latitude of 90 degrees is zero here and only
    nearly so in doubles.  An int too large for a double raises
    [OverflowError] on conversion, which is not modelled. *)

From Stdlib Require Import Reals Lra Lia ZArith List String Bool.
From Equations Require Import Equations.
Import ListNotations.

Open Scope R_scope.

(* ------------------------------------------------------------------ *)
(** ** Exceptions and the error monad *)

Inductive exn : Type :=
| KeyError (key : string)
| ZeroDivisionError
| IndexError.

Inductive result (A : Type) : Type :=
| Ok (a : A)
| Raise (e : exn).

Arguments Ok {A} a.
Arguments Raise {A} e.

Definition bind {A B : Type} (m : result A) (k : A -> result B) : result B :=
  match m with
  | Ok a => k a
  | Raise e => Raise e
  end.

Notation "x <- m ;; k" := (bind m (fun x => k))
  (at level 61, m at next level, right associativity).
Notation "' p <- m ;; k" := (bind m (fun x => let 'p := x in k))
  (at level 61, p pattern, m at next level, right associativity).

Definition fmap {A B : Type} (f : A -> B) (m : result A) : result B :=
  x <- m ;; Ok (f x).

(** A [for] loop whose body may raise and whose results are appended to an
    output list, in order. *)
Fixpoint for_each {A B : Type} (body : A -> result B) (xs : list A)
  : result (list B) :=
  match xs with
  | [] => Ok []
  | x :: rest =>
      y <- body x ;;
      ys <- for_each body rest ;;
      Ok (y :: ys)
  end.

(* ------------------------------------------------------------------ *)
(** ** Python arithmetic *)

(** [x / y] on floats, and on ints (true division). *)
Definition truediv (x y : R) : result R :=
  if Req_dec_T y 0 then Raise ZeroDivisionError else Ok (x / y).

(** [x % y] on floats: the remainder has the sign of the divisor. *)
Definition pymod (x y : R) : result R :=
  if Req_dec_T y 0 then Raise ZeroDivisionError
  else Ok (x - y * IZR (Zfloor (x / y))).

(** The value of [x % 360], the only modulus the program takes. *)
Definition mod360 (x : R) : R := x - 360 * IZR (Zfloor (x / 360)).

(** [a // b or 1] is written with this test: zero is falsy. *)
Definition or_else (a b : Z) : Z := if (a =? 0)%Z then b else a.

(** Nearest integer, ties to the even one. *)
Definition round_half_even (x : R) : Z :=
  let f := Zfloor x in
  let d := x - IZR f in
  if Rlt_dec d (1 / 2) then f
  else if Rlt_dec (1 / 2) d then (f + 1)%Z
  else if Z.even f then f else (f + 1)%Z.

(** [round(x, ndigits)] *)
Definition round (x : R) (ndigits : nat) : R :=
  IZR (round_half_even (x * 10 ^ ndigits)) / 10 ^ ndigits.

(** [int(x)]: truncation toward zero. *)
Definition int (x : R) : Z :=
  if Rle_dec 0 x then Zfloor x else (- Zfloor (- x))%Z.

(** [range(n)]: empty when [n <= 0]. *)
Fixpoint range_from (start : Z) (n : nat) : list Z :=
  match n with
  | O => []
  | S n' => start :: range_from (start + 1) n'
  end.

Definition range (n : Z) : list Z := range_from 0 (Z.to_nat n).

(** [xs[-1]] *)
Definition last_item {A : Type} (xs : list A) : result A :=
  match rev xs with
  | [] => Raise IndexError
  | x :: _ => Ok x
  end.

(** [xs[i]] for a non-negative [i]. *)
Definition item {A : Type} (xs : list A) (i : Z) : result A :=
  match nth_error xs (Z.to_nat i) with
  | Some x => Ok x
  | None => Raise IndexError
  end.

(** ** The [math] module *)

Definition math_radians (x : R) : R := x * (PI / 180).
Definition math_degrees (x : R) : R := x * (180 / PI).

Definition math_atan2 (y x : R) : R :=
  if Rlt_dec 0 x then atan (y / x)
  else if Rlt_dec x 0 then
    (if Rle_dec 0 y then atan (y / x) + PI else atan (y / x) - PI)
  else if Rlt_dec 0 y then PI / 2
  else if Rlt_dec y 0 then - (PI / 2)
  else 0.

(* ------------------------------------------------------------------ *)
(** ** Maths helpers *)

Definition M_PER_DEG_LAT : R := 111320.

Definition meters_to_latlon_offset (d_m angle_deg lat_c : R) : result (R * R) :=
  let m_per_deg_lon := M_PER_DEG_LAT * cos (math_radians lat_c) in
  let angle_rad := math_radians angle_deg in
  dlat <- truediv (d_m * cos angle_rad) M_PER_DEG_LAT ;;
  dlon <- truediv (d_m * sin angle_rad) m_per_deg_lon ;;
  Ok (dlat, dlon).

(* ------------------------------------------------------------------ *)
(** ** Profiles *)

Module SpeedProfile.
Record t : Type := mk {
  base : R;
  sine_amp : R;
  sine_period : R
}.

Definition default : t := mk 5 0 30.

Definition speed (self : t) (tm : R) : result R :=
  w <- truediv (2 * PI * tm) (sine_period self) ;;
  Ok (base self + sine_amp self * sin w).
End SpeedProfile.

Module AltitudeProfile.
Record t : Type := mk {
  takeoff_elevation : R;
  takeoff_altitude : R;
  climb_rate : R;
  sine_amp : R;
  sine_period : R
}.

Definition default : t := mk 0 500 2 0 60.

Definition height (self : t) (tm : R) : result R :=
  if Rle_dec tm 0 then Ok (takeoff_elevation self)
  else
    let altitude_diff := takeoff_altitude self - takeoff_elevation self in
    climb_time <- (if Rlt_dec 0 (climb_rate self)
                   then truediv altitude_diff (climb_rate self)
                   else Ok 0) ;;
    let h := if Rle_dec tm climb_time
             then takeoff_elevation self + climb_rate self * tm
             else takeoff_altitude self in
    if Req_dec_T (sine_amp self) 0 then Ok h
    else
      w <- truediv (2 * PI * tm) (sine_period self) ;;
      Ok (h + sine_amp self * sin w).
End AltitudeProfile.

Module GimbalProfile.
Record t : Type := mk {
  yaw_mode : string;
  yaw_static : R;
  yaw_amp : R;
  yaw_period : R;
  yaw_rotation_rate : R;
  pitch_mode : string;
  pitch_static : R;
  pitch_mid : R;
  pitch_amp : R;
  pitch_period : R;
  roll_amp : R;
  roll_period : R
}.

Definition default : t :=
  mk "static" 0 90 60 1 "static" (-30) (-30) 60 60 5 40.

Definition yaw (self : t) (heading tm : R) : result R :=
  if (yaw_mode self =? "static")%string then
    pymod (heading + yaw_static self) 360
  else if (yaw_mode self =? "oscillating")%string then
    w <- truediv (2 * PI * tm) (yaw_period self) ;;
    pymod (heading + yaw_amp self * sin w) 360
  else if (yaw_mode self =? "rotating")%string then
    pymod (heading + yaw_rotation_rate self * tm) 360
  else
    pymod heading 360.

Definition pitch (self : t) (tm : R) : result R :=
  if (pitch_mode self =? "static")%string then
    Ok (pitch_static self)
  else if (pitch_mode self =? "oscillating")%string then
    w <- truediv (2 * PI * tm) (pitch_period self) ;;
    Ok (pitch_mid self + (pitch_amp self / 2) * sin w)
  else
    Ok (pitch_static self).

Definition roll (self : t) (tm : R) : result R :=
  w <- truediv (2 * PI * tm) (roll_period self) ;;
  Ok (roll_amp self * sin w).
End GimbalProfile.

Module ZoomProfile.
Record t : Type := mk {
  mode : string;
  static_value : R;
  min_value : R;
  max_value : R;
  period : R
}.

Definition default : t := mk "static" 1 1 3 60.

Definition zoom_factor (self : t) (tm : R) : result R :=
  if (mode self =? "static")%string then
    Ok (static_value self)
  else if (mode self =? "oscillating")%string then
    let range_val := max_value self - min_value self in
    w <- truediv (2 * PI * tm) (period self) ;;
    Ok (min_value self + (range_val / 2) * (1 + sin w))
  else
    Ok (static_value self).
End ZoomProfile.

(* ------------------------------------------------------------------ *)
(** ** Flight configuration *)

Module FlightConfig.
Record t : Type := mk {
  path_type : string;
  duration : Z;
  hz : Z;
  center_lat : R;
  center_lon : R;
  radius_m : R;
  tri_edge_m : R;
  start_lat : R;
  start_lon : R;
  bearing_deg : R;
  altitude : AltitudeProfile.t;
  speed : SpeedProfile.t;
  gimbal : GimbalProfile.t;
  zoom : ZoomProfile.t
}.

Definition default : t :=
  mk "circle" 120 1
     (4553946 / 100000) (- (12276394 / 100000)) 60 120
     (4553946 / 100000) (- (12276394 / 100000)) 90
     AltitudeProfile.default SpeedProfile.default
     GimbalProfile.default ZoomProfile.default.

Definition total_pts (self : t) : Z := (duration self * hz self)%Z.
End FlightConfig.

Import FlightConfig.

(* ------------------------------------------------------------------ *)
(** ** Path generators *)

(** A waypoint is the tuple [(lat, lon, heading)]. *)
Definition Waypoint : Type := R * R * R.

Definition PathFunc : Type := FlightConfig.t -> result (list Waypoint).

Definition gen_circle : PathFunc := fun cfg =>
  for_each (fun i =>
    frac <- truediv (IZR i) (IZR (total_pts cfg)) ;;
    let ang := frac * 360 in
    '(dlat, dlon) <- meters_to_latlon_offset (radius_m cfg) ang (center_lat cfg) ;;
    let lat := center_lat cfg + dlat in
    let lon := center_lon cfg + dlon in
    heading <- pymod (ang + 90) 360 ;;
    Ok (lat, lon, heading))
  (range (total_pts cfg)).

Definition gen_straight : PathFunc := fun cfg =>
  let total_dist := SpeedProfile.base (speed cfg) * IZR (duration cfg) in
  step <- truediv total_dist (IZR (total_pts cfg)) ;;
  let lat0 := start_lat cfg in
  let lon0 := start_lon cfg in
  for_each (fun i =>
    let d := step * IZR i in
    '(dlat, dlon) <- meters_to_latlon_offset d (bearing_deg cfg) lat0 ;;
    heading <- pymod (bearing_deg cfg) 360 ;;
    Ok (lat0 + dlat, lon0 + dlon, heading))
  (range (total_pts cfg)).

Definition gen_hover : PathFunc := fun cfg =>
  heading <- pymod (bearing_deg cfg) 360 ;;
  Ok (repeat (start_lat cfg, start_lon cfg, heading) (Z.to_nat (total_pts cfg))).

(** [while len(out) < total: out.append(out[-1])] *)
Equations? pad_tail (total : Z) (out : list Waypoint) : result (list Waypoint)
  by wf (Z.to_nat (total - Z.of_nat (List.length out))) lt :=
  pad_tail total out with Z_lt_dec (Z.of_nat (List.length out)) total => {
    | left _ with last_item out => {
        | Ok w := pad_tail total (out ++ [w]);
        | Raise e := Raise e };
    | right _ := Ok out }.
Proof.
  rewrite length_app; simpl; lia.
Qed.

Definition gen_triangle : PathFunc := fun cfg =>
  verts <- for_each (fun k =>
    let ang := IZR (90 + k * 120) in
    r <- truediv (tri_edge_m cfg) (sqrt 3) ;;
    '(dlat, dlon) <- meters_to_latlon_offset r ang (center_lat cfg) ;;
    Ok (center_lat cfg + dlat, center_lon cfg + dlon))
  (range 3) ;;
  let pts_per_edge := or_else (total_pts cfg / 3) 1 in
  edges <- for_each (fun e =>
    '(lat1, lon1) <- item verts e ;;
    '(lat2, lon2) <- item verts ((e + 1) mod 3) ;;
    for_each (fun j =>
      t <- truediv (IZR j) (IZR pts_per_edge) ;;
      let lat := lat1 + t * (lat2 - lat1) in
      let lon := lon1 + t * (lon2 - lon1) in
      heading <- pymod (math_degrees (math_atan2 (lon2 - lon1) (lat2 - lat1))) 360 ;;
      Ok (lat, lon, heading))
    (range pts_per_edge))
  (range 3) ;;
  pad_tail (total_pts cfg) (List.concat edges).

(** The dict literal [PATHS], in its source order. *)
Definition PATHS : list (string * PathFunc) :=
  [ ("circle"%string, gen_circle);
    ("straight"%string, gen_straight);
    ("triangle"%string, gen_triangle);
    ("hover"%string, gen_hover) ].

(** [d[key]] *)
Fixpoint getitem {V : Type} (d : list (string * V)) (key : string) : result V :=
  match d with
  | [] => Raise (KeyError key)
  | (k, v) :: rest => if (k =? key)%string then Ok v else getitem rest key
  end.

(* ------------------------------------------------------------------ *)
(** ** The wall clock *)

(** A [datetime] is a count of microseconds; [isoformat()] prints it and is
    left out: an entry keeps the value it would print. *)
Definition datetime : Type := Z.

(** [datetime.timedelta(seconds=s)] is rounded to the microsecond. *)
Definition timedelta (seconds : R) : Z := round_half_even (seconds * 1000000).

(** The world holds the clock: its [reads]-th reading is [clock reads]. *)
Record World : Type := mkWorld {
  clock : nat -> datetime;
  reads : nat
}.

Definition current_time (w : World) : datetime := clock w (reads w).

Definition datetime_now (w : World) : datetime * World :=
  (current_time w, mkWorld (clock w) (S (reads w))).

(* ------------------------------------------------------------------ *)
(** ** Entry generation *)

(** The inner dict of an entry, [{"data": {...}}]. *)
Module Entry.
Record t : Type := mk {
  latitude : R;
  longitude : R;
  height : R;
  elevation : Z;
  attitude_head : R;
  attitude_roll : R;
  attitude_pitch : R;
  gimbal_pitch : R;
  gimbal_roll : R;
  gimbal_yaw : R;
  zoom_factor : R;
  speed : R;
  seconds_elapsed : Z;
  current_datetime : datetime;
  flight_distance : R
}.
End Entry.

(** The body of the [for i, (lat, lon, heading) in enumerate(path_pts)] loop,
    from index [i] on, with [flight_dist] accumulated so far. *)
Fixpoint entries_loop (cfg : FlightConfig.t) (start_time : datetime)
    (i : Z) (flight_dist : R) (path_pts : list Waypoint)
  : result (list Entry.t) :=
  match path_pts with
  | [] => Ok []
  | (lat, lon, heading) :: rest =>
      t <- truediv (IZR i) (IZR (hz cfg)) ;;
      speed <- SpeedProfile.speed (speed cfg) t ;;
      step <- truediv speed (IZR (hz cfg)) ;;
      let flight_dist := flight_dist + step in
      height <- AltitudeProfile.height (altitude cfg) t ;;
      attitude_roll <- GimbalProfile.roll (gimbal cfg) t ;;
      gimbal_pitch <- GimbalProfile.pitch (gimbal cfg) t ;;
      gimbal_roll <- GimbalProfile.roll (gimbal cfg) t ;;
      gimbal_yaw <- GimbalProfile.yaw (gimbal cfg) heading t ;;
      zoom_factor <- ZoomProfile.zoom_factor (zoom cfg) t ;;
      let entry :=
        Entry.mk (round lat 6) (round lon 6) (round height 1) 0
                 (round heading 1) (round attitude_roll 2) 0
                 (round gimbal_pitch 1) (round gimbal_roll 2)
                 (round gimbal_yaw 1) (round zoom_factor 2)
                 (round speed 2) (int t)
                 (start_time + timedelta t)%Z
                 (round flight_dist 1) in
      entries <- entries_loop cfg start_time (i + 1) flight_dist rest ;;
      Ok (entry :: entries)
  end.

Definition generate_entries (cfg : FlightConfig.t) (w : World)
  : result (list Entry.t) * World :=
  match getitem PATHS (path_type cfg) with
  | Raise e => (Raise e, w)
  | Ok gen =>
      match gen cfg with
      | Raise e => (Raise e, w)
      | Ok path_pts =>
          let (start_time, w') := datetime_now w in
          (entries_loop cfg start_time 0 0 path_pts, w')
      end
  end.

(* ------------------------------------------------------------------ *)
(** ** Statements and sample configurations *)

(** The climb duration as the specification words it. *)
Definition climb_time (p : AltitudeProfile.t) : R :=
  if Rlt_dec 0 (AltitudeProfile.climb_rate p)
  then (AltitudeProfile.takeoff_altitude p - AltitudeProfile.takeoff_elevation p)
       / AltitudeProfile.climb_rate p
  else 0.

(** The samples on each edge of the triangle, [total_pts // 3 or 1]. *)
Definition pts_per_edge (cfg : FlightConfig.t) : Z := or_else (total_pts cfg / 3) 1.

(** A descent: the takeoff elevation lies above the target altitude. *)
Definition descending_profile : AltitudeProfile.t :=
  AltitudeProfile.mk 100 50 2 0 60.

(** The profile of the specification's example. *)
Definition climb_500 : AltitudeProfile.t := AltitudeProfile.mk 0 500 2 0 60.

(** [FlightConfig(path_type=p, duration=d, hz=h, center_lat=0.0,
    start_lat=0.0, bearing_deg=b)], all other fields at their defaults. *)
Definition sample_config (p : string) (d h : Z) (b : R) : FlightConfig.t :=
  FlightConfig.mk p d h
    0 (- (12276394 / 100000)) 60 120
    0 (- (12276394 / 100000)) b
    AltitudeProfile.default SpeedProfile.default
    GimbalProfile.default ZoomProfile.default.

(** A world whose clock always shows the same instant. *)
Definition frozen_world (now : datetime) : World := mkWorld (fun _ => now) 0.

(** The hover of one sample whose zoom oscillates with the period zero. *)
Definition zero_period_config : FlightConfig.t :=
  FlightConfig.mk "hover" 1 1
    0 (- (12276394 / 100000)) 60 120
    0 (- (12276394 / 100000)) 90
    AltitudeProfile.default SpeedProfile.default
    GimbalProfile.default (ZoomProfile.mk "oscillating" 1 1 3 0).

(** No profile of the configuration divides by a zero period. *)
Definition profiles_ok (cfg : FlightConfig.t) : Prop :=
  SpeedProfile.sine_period (speed cfg) <> 0 /\
  (AltitudeProfile.sine_amp (altitude cfg) <> 0 ->
   AltitudeProfile.sine_period (altitude cfg) <> 0) /\
  GimbalProfile.roll_period (gimbal cfg) <> 0 /\
  (GimbalProfile.yaw_mode (gimbal cfg) = "oscillating"%string ->
   GimbalProfile.yaw_period (gimbal cfg) <> 0) /\
  (GimbalProfile.pitch_mode (gimbal cfg) = "oscillating"%string ->
   GimbalProfile.pitch_period (gimbal cfg) <> 0) /\
  (ZoomProfile.mode (zoom cfg) = "oscillating"%string ->
   ZoomProfile.period (zoom cfg) <> 0).

(** The latitude whose cosine scales the longitude offsets of the path. *)
Definition reference_latitude (cfg : FlightConfig.t) : R :=
  if (path_type cfg =? "straight")%string then start_lat cfg else center_lat cfg.

(** The path does not divide by the cosine of a polar latitude (a hover
    computes no offset). *)
Definition geometry_ok (cfg : FlightConfig.t) : Prop :=
  path_type cfg = "hover"%string \/
  cos (math_radians (reference_latitude cfg)) <> 0.

(** The speed at time [tm], as the specification gives it, unrounded. *)
Definition speed_at (cfg : FlightConfig.t) (tm : R) : R :=
  SpeedProfile.base (speed cfg)
  + SpeedProfile.sine_amp (speed cfg)
    * sin (2 * PI * tm / SpeedProfile.sine_period (speed cfg)).

(** The distance of the [n] steps from sample [i] on, each the unrounded
    speed at its sample time divided by the sample rate. *)
Fixpoint sum_steps (cfg : FlightConfig.t) (i : Z) (n : nat) : R :=
  match n with
  | O => 0
  | S n' =>
      speed_at cfg (IZR i / IZR (hz cfg)) / IZR (hz cfg)
      + sum_steps cfg (i + 1) n'
  end.

(** An entry with its timestamp blanked. *)
Definition without_datetime (e : Entry.t) : Entry.t :=
  Entry.mk (Entry.latitude e) (Entry.longitude e) (Entry.height e)
           (Entry.elevation e) (Entry.attitude_head e) (Entry.attitude_roll e)
           (Entry.attitude_pitch e) (Entry.gimbal_pitch e) (Entry.gimbal_roll e)
           (Entry.gimbal_yaw e) (Entry.zoom_factor e) (Entry.speed e)
           (Entry.seconds_elapsed e) 0%Z (Entry.flight_distance e).

(** The altitude profile with its ripple switched off. *)
Definition without_ripple (p : AltitudeProfile.t) : AltitudeProfile.t :=
  AltitudeProfile.mk (AltitudeProfile.takeoff_elevation p)
                     (AltitudeProfile.takeoff_altitude p)
                     (AltitudeProfile.climb_rate p)
                     0
                     (AltitudeProfile.sine_period p).

(** What the loop stores in the entry [e] of sample [i] at the waypoint
    [wp], the flight distance apart: every field is the rounding of a
    profile value at [t = i / hz] or of a waypoint component. *)
Definition sample_entry (cfg : FlightConfig.t) (start_time : datetime)
    (i : Z) (wp : Waypoint) (e : Entry.t) : Prop :=
  let '(lat, lon, heading) := wp in
  let t := IZR i / IZR (hz cfg) in
  exists h r p y z : R,
    AltitudeProfile.height (altitude cfg) t = Ok h /\
    GimbalProfile.roll (gimbal cfg) t = Ok r /\
    GimbalProfile.pitch (gimbal cfg) t = Ok p /\
    GimbalProfile.yaw (gimbal cfg) heading t = Ok y /\
    ZoomProfile.zoom_factor (zoom cfg) t = Ok z /\
    Entry.latitude e = round lat 6 /\
    Entry.longitude e = round lon 6 /\
    Entry.height e = round h 1 /\
    Entry.elevation e = 0%Z /\
    Entry.attitude_head e = round heading 1 /\
    Entry.attitude_roll e = round r 2 /\
    Entry.attitude_pitch e = 0 /\
    Entry.gimbal_pitch e = round p 1 /\
    Entry.gimbal_roll e = round r 2 /\
    Entry.gimbal_yaw e = round y 1 /\
    Entry.zoom_factor e = round z 2 /\
    Entry.seconds_elapsed e = int t /\
    Entry.current_datetime e = (start_time + timedelta t)%Z.

(** The computation raises nothing but [ZeroDivisionError]. *)
Definition raises_only_zero_division {A : Type} (m : result A) : Prop :=
  forall e, m = Raise e -> e = ZeroDivisionError.

(* ------------------------------------------------------------------ *)
(** ** Config helpers *)

(** The [argparse.Namespace] that [build_config] reads.  An option that is
    [None] is [None] here; for the options [build_config] reads behind
    [hasattr], from [takeoff_elevation] on, a missing attribute is [None]
    as well, since the two are treated alike. *)
Module Namespace.
Record t : Type := mk {
  path : string;
  duration : Z;
  hz : Z;
  center : option string;
  radius : option R;
  tri_edge : option R;
  start : option string;
  bearing : option R;
  takeoff_elevation : option R;
  takeoff_altitude : option R;
  climb_rate : option R;
  sine_amp : option R;
  sine_period : option R;
  yaw_mode : option string;
  yaw_static : option R;
  yaw_amp : option R;
  yaw_period : option R;
  yaw_rotation_rate : option R;
  pitch_mode : option string;
  pitch_static : option R;
  pitch_mid : option R;
  pitch_amp : option R;
  pitch_period : option R;
  zoom_mode : option string;
  zoom_static : option R;
  zoom_min : option R;
  zoom_max : option R;
  zoom_period : option R
}.
End Namespace.

(** [s.split(",")] *)
Fixpoint split_comma (s : string) : list string :=
  match s with
  | EmptyString => [EmptyString]
  | String c rest =>
      if (String c EmptyString =? ",")%string then EmptyString :: split_comma rest
      else match split_comma rest with
           | [] => [String c EmptyString]
           | x :: xs => String c x :: xs
           end
  end.

(** [a, b = map(float, parts)]: every failure, of [float] on a part or of
    the unpacking on the number of parts, is a [ValueError], here [None].
    The builtin [float] on strings is the parameter [float_of]. *)
Definition unpack_floats (float_of : string -> option R) (parts : list string)
  : option (R * R) :=
  match parts with
  | [a; b] =>
      match float_of a, float_of b with
      | Some x, Some y => Some (x, y)
      | _, _ => None
      end
  | _ => None
  end.

(** The truth value of an optional string and of an optional float. *)
Definition truthy_string (o : option string) : option string :=
  match o with
  | Some EmptyString => None
  | _ => o
  end.

Definition truthy_float (o : option R) : option R :=
  match o with
  | Some x => if Req_dec_T x 0 then None else Some x
  | None => None
  end.

(** [if o is not None: field = o], and its variant on truth values. *)
Definition override {A : Type} (field : A) (o : option A) : A :=
  match o with
  | Some v => v
  | None => field
  end.

(** What [build_config] returns: a configuration, or the [ValueError] of a
    malformed coordinate pair. *)
Inductive built : Type :=
| Built (cfg : FlightConfig.t)
| ValueError.

(** [lat, lon = map(float, text.split(","))] when [applies] and the text is
    truthy; the pair is left alone otherwise. *)
Definition parse_pair (float_of : string -> option R) (applies : bool)
    (text : option string) (current : R * R) : option (R * R) :=
  if applies then
    match truthy_string text with
    | Some s => unpack_floats float_of (split_comma s)
    | None => Some current
    end
  else Some current.

Definition build_config (float_of : string -> option R) (ns : Namespace.t)
  : built :=
  let cfg := FlightConfig.mk (Namespace.path ns) (Namespace.duration ns)
               (Namespace.hz ns)
               (center_lat FlightConfig.default) (center_lon FlightConfig.default)
               (radius_m FlightConfig.default) (tri_edge_m FlightConfig.default)
               (start_lat FlightConfig.default) (start_lon FlightConfig.default)
               (bearing_deg FlightConfig.default)
               AltitudeProfile.default SpeedProfile.default
               GimbalProfile.default ZoomProfile.default in
  let path_is p := (path_type cfg =? p)%string in
  let circle_or_triangle := path_is "circle"%string || path_is "triangle"%string in
  let straight_or_hover := path_is "straight"%string || path_is "hover"%string in
  match parse_pair float_of circle_or_triangle (Namespace.center ns)
          (center_lat cfg, center_lon cfg) with
  | None => ValueError
  | Some (clat, clon) =>
      let radius := if path_is "circle"%string
                    then override (radius_m cfg) (truthy_float (Namespace.radius ns))
                    else radius_m cfg in
      let tri_edge := if path_is "triangle"%string
                      then override (tri_edge_m cfg)
                             (truthy_float (Namespace.tri_edge ns))
                      else tri_edge_m cfg in
      match parse_pair float_of straight_or_hover (Namespace.start ns)
              (start_lat cfg, start_lon cfg) with
      | None => ValueError
      | Some (slat, slon) =>
          let bearing := if straight_or_hover
                         then override (bearing_deg cfg) (Namespace.bearing ns)
                         else bearing_deg cfg in
          let a := altitude cfg in
          let g := gimbal cfg in
          let z := zoom cfg in
          Built (FlightConfig.mk (path_type cfg) (FlightConfig.duration cfg)
            (FlightConfig.hz cfg)
            clat clon radius tri_edge slat slon bearing
            (AltitudeProfile.mk
               (override (AltitudeProfile.takeoff_elevation a) (Namespace.takeoff_elevation ns))
               (override (AltitudeProfile.takeoff_altitude a) (Namespace.takeoff_altitude ns))
               (override (AltitudeProfile.climb_rate a) (Namespace.climb_rate ns))
               (override (AltitudeProfile.sine_amp a) (Namespace.sine_amp ns))
               (override (AltitudeProfile.sine_period a) (Namespace.sine_period ns)))
            (speed cfg)
            (GimbalProfile.mk
               (override (GimbalProfile.yaw_mode g) (truthy_string (Namespace.yaw_mode ns)))
               (override (GimbalProfile.yaw_static g) (Namespace.yaw_static ns))
               (override (GimbalProfile.yaw_amp g) (Namespace.yaw_amp ns))
               (override (GimbalProfile.yaw_period g) (Namespace.yaw_period ns))
               (override (GimbalProfile.yaw_rotation_rate g) (Namespace.yaw_rotation_rate ns))
               (override (GimbalProfile.pitch_mode g) (truthy_string (Namespace.pitch_mode ns)))
               (override (GimbalProfile.pitch_static g) (Namespace.pitch_static ns))
               (override (GimbalProfile.pitch_mid g) (Namespace.pitch_mid ns))
               (override (GimbalProfile.pitch_amp g) (Namespace.pitch_amp ns))
               (override (GimbalProfile.pitch_period g) (Namespace.pitch_period ns))
               (GimbalProfile.roll_amp g)
               (GimbalProfile.roll_period g))
            (ZoomProfile.mk
               (override (ZoomProfile.mode z) (truthy_string (Namespace.zoom_mode ns)))
               (override (ZoomProfile.static_value z) (Namespace.zoom_static ns))
               (override (ZoomProfile.min_value z) (Namespace.zoom_min ns))
               (override (ZoomProfile.max_value z) (Namespace.zoom_max ns))
               (override (ZoomProfile.period z) (Namespace.zoom_period ns))))
      end
  end.

(** A namespace with the given path type, sizes and geometry options and
    every profile option left out. *)
Definition geometry_namespace (path : string) (duration hz : Z)
    (center : option string) (radius tri_edge : option R)
    (start : option string) (bearing : option R) : Namespace.t :=
  Namespace.mk path duration hz center radius tri_edge start bearing
    None None None None None None None None None None
    None None None None None None None None None None.

(** A hover of 200 samples at one sample per second whose speed, 0.004,
    rounds to 0.00 in the two decimals of the [speed] field. *)
Definition slow_hover : FlightConfig.t :=
  FlightConfig.mk "hover" 200 1
    0 (- (12276394 / 100000)) 60 120
    0 (- (12276394 / 100000)) 90
    AltitudeProfile.default (SpeedProfile.mk (1 / 250) 0 30)
    GimbalProfile.default ZoomProfile.default.

(* ------------------------------------------------------------------ *)
(** * Properties *)

(** ** Arithmetic and the error monad *)

Lemma truediv_ok (x y : R) : y <> 0 -> truediv x y = Ok (x / y).
Proof.
  intros Hy. unfold truediv. destruct (Req_dec_T y 0); [contradiction | reflexivity].
Qed.

Lemma truediv_zero (x : R) : truediv x 0 = Raise ZeroDivisionError.
Proof.
  unfold truediv. destruct (Req_dec_T 0 0) as [_ | H]; [reflexivity | now elim H].
Qed.

Lemma truediv_inv (x y q : R) : truediv x y = Ok q -> y <> 0 /\ q = x / y.
Proof.
  unfold truediv. destruct (Req_dec_T y 0); [discriminate |].
  intros H. injection H as <-. now split.
Qed.

Lemma pymod_360 (x : R) : pymod x 360 = Ok (mod360 x).
Proof.
  unfold pymod. destruct (Req_dec_T 360 0) as [H | _]; [lra | reflexivity].
Qed.

Lemma mod360_range (x : R) : 0 <= mod360 x < 360.
Proof.
  unfold mod360. pose proof (Zfloor_bound (x / 360)) as [Hlo Hhi].
  assert (Hx : x = 360 * (x / 360)) by (field; lra).
  split; lra.
Qed.

Lemma mod360_small (x : R) : 0 <= x < 360 -> mod360 x = x.
Proof.
  intros [H0 H1]. unfold mod360.
  assert (Hf : Zfloor (x / 360) = 0%Z).
  { apply Zfloor_eq. simpl. split.
    - apply Rmult_le_pos; lra.
    - apply (Rmult_lt_reg_r 360); [lra |]. unfold Rdiv.
      rewrite Rmult_assoc, Rinv_l; lra. }
  rewrite Hf. simpl. lra.
Qed.

Lemma mod360_shift (x : R) (k : Z) : 0 <= x < 360 -> mod360 (x + 360 * IZR k) = x.
Proof.
  intros Hx. unfold mod360.
  replace ((x + 360 * IZR k) / 360) with (x / 360 + IZR k) by (field; lra).
  rewrite Zfloor_addz.
  assert (Hf : Zfloor (x / 360) = 0%Z).
  { apply Zfloor_eq. simpl. destruct Hx as [H0 H1]. split.
    - apply Rmult_le_pos; lra.
    - apply (Rmult_lt_reg_r 360); [lra |]. unfold Rdiv.
      rewrite Rmult_assoc, Rinv_l; lra. }
  rewrite Hf, plus_IZR. simpl. lra.
Qed.

Lemma bind_ok {A B : Type} (m : result A) (k : A -> result B) (b : B) :
  bind m k = Ok b -> exists a, m = Ok a /\ k a = Ok b.
Proof.
  destruct m as [a | e]; simpl; [eauto | discriminate].
Qed.

Ltac bind_inv H :=
  let a := fresh "a" in
  let Ha := fresh "Ha" in
  apply bind_ok in H; destruct H as (a & Ha & H).

Lemma for_each_length {A B : Type} (body : A -> result B) (xs : list A) (ys : list B) :
  for_each body xs = Ok ys -> List.length ys = List.length xs.
Proof.
  revert ys. induction xs as [| x rest IH]; intros ys H; simpl in H.
  - now injection H as <-.
  - bind_inv H. bind_inv H. injection H as <-. simpl. f_equal. now apply IH.
Qed.

Lemma for_each_total {A B : Type} (body : A -> result B) (xs : list A) :
  (forall x, In x xs -> exists y, body x = Ok y) ->
  exists ys, for_each body xs = Ok ys.
Proof.
  induction xs as [| x rest IH]; intros Hb; simpl.
  - now exists [].
  - destruct (Hb x (or_introl eq_refl)) as [y Hy].
    destruct IH as [ys Hys]; [intros; apply Hb; now right |].
    exists (y :: ys). now rewrite Hy, Hys.
Qed.

Lemma range_from_length (s : Z) (n : nat) : List.length (range_from s n) = n.
Proof.
  revert s. induction n as [| n IH]; intros s; simpl; [reflexivity | now rewrite IH].
Qed.

Lemma range_from_nth (s : Z) (n i : nat) :
  (i < n)%nat -> nth_error (range_from s n) i = Some (s + Z.of_nat i)%Z.
Proof.
  revert s i. induction n as [| n IH]; intros s i Hi; [lia |].
  destruct i as [| i]; simpl.
  - f_equal. lia.
  - rewrite IH by lia. f_equal. lia.
Qed.

Lemma range_from_In (s : Z) (n : nat) (x : Z) :
  In x (range_from s n) -> (s <= x < s + Z.of_nat n)%Z.
Proof.
  revert s. induction n as [| n IH]; intros s; simpl; [tauto |].
  intros [<- | H]; [lia |]. apply IH in H. lia.
Qed.

Lemma range_length (n : Z) : List.length (range n) = Z.to_nat n.
Proof. apply range_from_length. Qed.

Lemma range_nth (n : Z) (i : nat) :
  (Z.of_nat i < n)%Z -> nth_error (range n) i = Some (Z.of_nat i).
Proof.
  intros Hi. unfold range. rewrite range_from_nth by lia. reflexivity.
Qed.

Lemma range_In (n x : Z) : In x (range n) -> (0 <= x < n)%Z.
Proof.
  intros H. apply range_from_In in H. lia.
Qed.

(* ------------------------------------------------------------------ *)
(** ** Unknown modes and unknown path types *)

(** C8. A mode string outside the recognised set never raises: [yaw] falls
    back to [heading % 360], [pitch] to the static pitch and [zoom_factor]
    to the static zoom value, whatever the heading and the time. *)
Theorem unknown_mode_falls_back
    (g : GimbalProfile.t) (z : ZoomProfile.t) (heading tm : R) :
  (GimbalProfile.yaw_mode g <> "static"%string ->
   GimbalProfile.yaw_mode g <> "oscillating"%string ->
   GimbalProfile.yaw_mode g <> "rotating"%string ->
   GimbalProfile.yaw g heading tm = Ok (mod360 heading)) /\
  (GimbalProfile.pitch_mode g <> "static"%string ->
   GimbalProfile.pitch_mode g <> "oscillating"%string ->
   GimbalProfile.pitch g tm = Ok (GimbalProfile.pitch_static g)) /\
  (ZoomProfile.mode z <> "static"%string ->
   ZoomProfile.mode z <> "oscillating"%string ->
   ZoomProfile.zoom_factor z tm = Ok (ZoomProfile.static_value z)).
Proof.
  repeat split.
  - intros H1 H2 H3. unfold GimbalProfile.yaw.
    apply String.eqb_neq in H1, H2, H3. rewrite H1, H2, H3. apply pymod_360.
  - intros H1 H2. unfold GimbalProfile.pitch.
    apply String.eqb_neq in H1, H2. now rewrite H1, H2.
  - intros H1 H2. unfold ZoomProfile.zoom_factor.
    apply String.eqb_neq in H1, H2. now rewrite H1, H2.
Qed.

Lemma unknown_mode_falls_back_witness :
  let g := GimbalProfile.mk "spiral" 0 90 0 1 "spiral" (-30) (-30) 60 0 5 40 in
  let z := ZoomProfile.mk "spiral" 2 1 3 0 in
  GimbalProfile.yaw g 725 10 = Ok (mod360 725) /\
  GimbalProfile.pitch g 10 = Ok (-30) /\
  ZoomProfile.zoom_factor z 10 = Ok 2.
Proof.
  intros g z.
  destruct (unknown_mode_falls_back g z 725 10) as (Hy & Hp & Hz).
  split; [| split].
  - apply Hy; discriminate.
  - apply Hp; discriminate.
  - apply Hz; discriminate.
Defined.

Lemma getitem_PATHS_unknown (key : string) :
  ~ In key ["circle"; "straight"; "triangle"; "hover"]%string ->
  getitem PATHS key = Raise (KeyError key).
Proof.
  intros H. simpl in H. unfold PATHS, getitem.
  destruct (String.eqb_spec "circle" key); [tauto |].
  destruct (String.eqb_spec "straight" key); [tauto |].
  destruct (String.eqb_spec "triangle" key); [tauto |].
  destruct (String.eqb_spec "hover" key); [tauto |].
  reflexivity.
Qed.

(** C10. With a path type outside circle, straight, triangle and hover,
    [generate_entries] raises [KeyError] on the [PATHS] lookup: no record is
    produced and the clock has not been read. *)
Theorem unknown_path_type_raises_KeyError (cfg : FlightConfig.t) (w : World) :
  ~ In (path_type cfg) ["circle"; "straight"; "triangle"; "hover"]%string ->
  generate_entries cfg w = (Raise (KeyError (path_type cfg)), w).
Proof.
  intros H. unfold generate_entries. now rewrite getitem_PATHS_unknown.
Qed.

Lemma unknown_path_type_raises_KeyError_witness :
  generate_entries (sample_config "spiral" 120 1 90) (frozen_world 0%Z)
  = (Raise (KeyError "spiral"), frozen_world 0%Z).
Proof.
  apply (unknown_path_type_raises_KeyError (sample_config "spiral" 120 1 90)).
  simpl. intros [H | [H | [H | [H | []]]]]; discriminate.
Defined.

(* ------------------------------------------------------------------ *)
(** ** Hover *)

Lemma mod360_450 : mod360 450 = 90.
Proof.
  replace 450 with (90 + 360 * IZR 1) by lra. apply mod360_shift. lra.
Qed.

(** C2, as stated, fails: a hover at bearing 450 produces the heading 90,
    not the configured bearing. *)
Lemma hover_heading_counterexample :
  gen_hover (sample_config "hover" 1 1 450)
  = Ok [(start_lat (sample_config "hover" 1 1 450),
         start_lon (sample_config "hover" 1 1 450), 90)]
  /\ 90 <> bearing_deg (sample_config "hover" 1 1 450).
Proof.
  split.
  - unfold gen_hover. simpl bearing_deg. rewrite pymod_360, mod360_450. reflexivity.
  - simpl. lra.
Qed.

(** C2, amended. [gen_hover] never raises and returns [total_pts] waypoints
    (none when that count is not positive); each of them is the start
    latitude, the start longitude and the bearing reduced modulo 360, which
    is the bearing itself when it lies in [0, 360). *)
Theorem hover_waypoints_identical (cfg : FlightConfig.t) :
  exists pts,
    gen_hover cfg = Ok pts /\
    List.length pts = Z.to_nat (total_pts cfg) /\
    (forall i, (i < Z.to_nat (total_pts cfg))%nat ->
       nth_error pts i
       = Some (start_lat cfg, start_lon cfg, mod360 (bearing_deg cfg))) /\
    (0 <= bearing_deg cfg < 360 -> mod360 (bearing_deg cfg) = bearing_deg cfg).
Proof.
  unfold gen_hover. rewrite pymod_360. simpl.
  eexists. split; [reflexivity |]. split; [apply repeat_length |]. split.
  - intros i Hi. now apply nth_error_repeat.
  - apply mod360_small.
Qed.

Lemma hover_waypoints_identical_witness :
  exists pts,
    gen_hover (sample_config "hover" 120 1 90) = Ok pts /\
    List.length pts = 120%nat /\
    nth_error pts 119
    = Some (0, - (12276394 / 100000), mod360 90) /\
    mod360 90 = 90.
Proof.
  destruct (hover_waypoints_identical (sample_config "hover" 120 1 90))
    as (pts & Hgen & Hlen & Hnth & Hsmall).
  exists pts. split; [exact Hgen |]. split; [exact Hlen |]. split.
  - apply (Hnth 119%nat). simpl. lia.
  - apply Hsmall. simpl. lra.
Defined.

(* ------------------------------------------------------------------ *)
(** ** Altitude *)

Import AltitudeProfile.

Lemma height_after_takeoff (p : AltitudeProfile.t) (tm : R) :
  AltitudeProfile.sine_amp p = 0 -> 0 < tm ->
  height p tm
  = Ok (if Rle_dec tm (climb_time p)
        then takeoff_elevation p + climb_rate p * tm
        else takeoff_altitude p).
Proof.
  intros Hamp Ht. unfold height, climb_time.
  destruct (Rle_dec tm 0) as [H | _]; [lra |].
  destruct (Rlt_dec 0 (climb_rate p)) as [Hr | Hr].
  - rewrite truediv_ok by lra. simpl.
    destruct (Req_dec_T (AltitudeProfile.sine_amp p) 0); [reflexivity | contradiction].
  - simpl. destruct (Req_dec_T (AltitudeProfile.sine_amp p) 0); [reflexivity | contradiction].
Qed.

(** C3, as stated, fails in its third case: on a descent the climb time is
    negative, so the time 0 lies after it, and the height there is the
    takeoff elevation, not the target. *)
Lemma altitude_after_climb_counterexample :
  AltitudeProfile.sine_amp descending_profile = 0 /\
  climb_time descending_profile < 0 /\
  height descending_profile 0 <> Ok (takeoff_altitude descending_profile).
Proof.
  split; [reflexivity |]. split.
  - unfold climb_time, descending_profile. simpl.
    destruct (Rlt_dec 0 2); lra.
  - unfold height. destruct (Rle_dec 0 0) as [_ | H]; [| lra].
    simpl. intros H. injection H as H. lra.
Qed.

(** C3, amended. Without ripple: [height t] is the start elevation when
    [t <= 0]; it is [start + climb_rate * t] when [0 < t <= climb_time];
    and it is the target when [t > climb_time] and [t > 0].  For start 0,
    target 500 and climb rate 2: [height 0 = 0], [height 250 = 500] and
    [height t = 500] for every [t > 250]. *)
Theorem altitude_piecewise (p : AltitudeProfile.t) (tm : R) :
  AltitudeProfile.sine_amp p = 0 ->
  (tm <= 0 -> height p tm = Ok (takeoff_elevation p)) /\
  (0 < tm <= climb_time p ->
   height p tm = Ok (takeoff_elevation p + climb_rate p * tm)) /\
  (0 < tm -> climb_time p < tm -> height p tm = Ok (takeoff_altitude p)) /\
  (takeoff_elevation p = 0 -> takeoff_altitude p = 500 -> climb_rate p = 2 ->
   height p 0 = Ok 0 /\
   height p 250 = Ok 500 /\
   (250 < tm -> height p tm = Ok 500)).
Proof.
  intros Hamp. split; [| split; [| split]].
  - intros Ht. unfold height. destruct (Rle_dec tm 0); [reflexivity | contradiction].
  - intros [H0 H1]. rewrite height_after_takeoff by assumption.
    destruct (Rle_dec tm (climb_time p)); [reflexivity | contradiction].
  - intros H0 H1. rewrite height_after_takeoff by assumption.
    destruct (Rle_dec tm (climb_time p)); [lra | reflexivity].
  - intros Hs Htgt Hr.
    assert (Hc : climb_time p = 250).
    { unfold climb_time. rewrite Hs, Htgt, Hr. destruct (Rlt_dec 0 2); lra. }
    split; [| split].
    + unfold height. destruct (Rle_dec 0 0); [now rewrite Hs | lra].
    + rewrite height_after_takeoff by (assumption || lra). rewrite Hc, Hs, Hr.
      destruct (Rle_dec 250 250); [f_equal; lra | lra].
    + intros Ht. rewrite height_after_takeoff by (assumption || lra). rewrite Hc.
      destruct (Rle_dec tm 250); [lra | now rewrite Htgt].
Qed.

Lemma altitude_piecewise_witness :
  height climb_500 0 = Ok 0 /\
  height climb_500 250 = Ok 500 /\
  height climb_500 100 = Ok (0 + 2 * 100) /\
  height climb_500 300 = Ok 500.
Proof.
  assert (Hc : climb_time climb_500 = 250).
  { unfold climb_time, climb_500. simpl. destruct (Rlt_dec 0 2); lra. }
  destruct (altitude_piecewise climb_500 100 eq_refl) as (_ & Hmid & _ & _).
  destruct (altitude_piecewise climb_500 300 eq_refl) as (_ & _ & _ & Hex).
  destruct (Hex eq_refl eq_refl eq_refl) as (H0 & H250 & H300).
  split; [exact H0 |]. split; [exact H250 |]. split.
  - apply Hmid. rewrite Hc. lra.
  - apply H300. lra.
Defined.

(* ------------------------------------------------------------------ *)
(** ** Zoom *)

Import ZoomProfile.

(** C4. In oscillating mode with a period that is not zero,
    [zoom_factor t = min + ((max - min) / 2) * (1 + sin (2 * pi * t / period))]
    for every [t]; [zoom_factor 0 = (min + max) / 2]; and for [min = 1],
    [max = 3] the value never leaves the interval [1, 3]. *)
Theorem zoom_oscillating (z : ZoomProfile.t) (tm : R) :
  mode z = "oscillating"%string -> period z <> 0 ->
  zoom_factor z tm
  = Ok (min_value z
        + ((max_value z - min_value z) / 2) * (1 + sin (2 * PI * tm / period z))) /\
  zoom_factor z 0 = Ok ((min_value z + max_value z) / 2) /\
  (min_value z = 1 -> max_value z = 3 ->
   exists v, zoom_factor z tm = Ok v /\ 1 <= v <= 3).
Proof.
  intros Hm Hp.
  assert (Hz : forall t, zoom_factor z t
    = Ok (min_value z
          + ((max_value z - min_value z) / 2) * (1 + sin (2 * PI * t / period z)))).
  { intros t. unfold zoom_factor. rewrite Hm. simpl.
    now rewrite truediv_ok by assumption. }
  split; [apply Hz |]. split.
  - rewrite Hz. f_equal.
    replace (2 * PI * 0 / period z) with 0 by (unfold Rdiv; ring).
    rewrite sin_0. lra.
  - intros Hmin Hmax. eexists. split; [apply Hz |].
    rewrite Hmin, Hmax.
    pose proof (SIN_bound (2 * PI * tm / period z)) as [Hlo Hhi].
    split; lra.
Qed.

Lemma zoom_oscillating_witness :
  let z := ZoomProfile.mk "oscillating" 1 1 3 60 in
  zoom_factor z 0 = Ok ((1 + 3) / 2) /\
  exists v, zoom_factor z 15 = Ok v /\ 1 <= v <= 3.
Proof.
  intros z.
  assert (Hp : period z <> 0) by (simpl; lra).
  destruct (zoom_oscillating z 15 eq_refl Hp) as (_ & H0 & Hb).
  split; [exact H0 | exact (Hb eq_refl eq_refl)].
Defined.

(* ------------------------------------------------------------------ *)
(** ** The geodetic offset, circle and straight paths *)

Lemma meters_to_latlon_offset_ok (d_m angle_deg lat_c : R) :
  cos (math_radians lat_c) <> 0 ->
  meters_to_latlon_offset d_m angle_deg lat_c
  = Ok (d_m * cos (math_radians angle_deg) / 111320,
        d_m * sin (math_radians angle_deg) / (111320 * cos (math_radians lat_c))).
Proof.
  intros Hc. unfold meters_to_latlon_offset, M_PER_DEG_LAT.
  rewrite truediv_ok by lra. simpl.
  rewrite truediv_ok; [reflexivity |].
  apply Rmult_integral_contrapositive_currified; [lra | assumption].
Qed.

Lemma for_each_map {A B : Type} (body : A -> result B) (f : A -> B) (xs : list A) :
  (forall x, In x xs -> body x = Ok (f x)) ->
  for_each body xs = Ok (map f xs).
Proof.
  induction xs as [| x rest IH]; intros Hb; simpl; [reflexivity |].
  rewrite (Hb x (or_introl eq_refl)). simpl.
  rewrite IH by (intros; apply Hb; now right). reflexivity.
Qed.

Lemma map_range_nth {B : Type} (f : Z -> B) (n : Z) (i : nat) :
  (Z.of_nat i < n)%Z -> nth_error (map f (range n)) i = Some (f (Z.of_nat i)).
Proof.
  intros Hi. rewrite nth_error_map, range_nth by assumption. reflexivity.
Qed.

(** C6. On a circle whose centre latitude has a non-zero cosine, waypoint
    [i] of the [total_pts] waypoints lies at bearing [(i / total) * 360]:
    its latitude is the centre's plus [radius * cos b / 111320], its
    longitude the centre's plus [radius * sin b / (111320 * cos lat_c)]
    ([b] and [lat_c] in radians), and its heading is [(bearing + 90) % 360]. *)
Theorem circle_waypoints (cfg : FlightConfig.t) :
  cos (math_radians (center_lat cfg)) <> 0 ->
  exists pts,
    gen_circle cfg = Ok pts /\
    List.length pts = Z.to_nat (total_pts cfg) /\
    forall i : nat, (Z.of_nat i < total_pts cfg)%Z ->
      let bearing := IZR (Z.of_nat i) / IZR (total_pts cfg) * 360 in
      let dlat := radius_m cfg * cos (math_radians bearing) / 111320 in
      let dlon := radius_m cfg * sin (math_radians bearing)
                  / (111320 * cos (math_radians (center_lat cfg))) in
      nth_error pts i
      = Some (center_lat cfg + dlat, center_lon cfg + dlon, mod360 (bearing + 90)).
Proof.
  intros Hc.
  pose (f := fun i : Z =>
    let bearing := IZR i / IZR (total_pts cfg) * 360 in
    (center_lat cfg + radius_m cfg * cos (math_radians bearing) / 111320,
     center_lon cfg + radius_m cfg * sin (math_radians bearing)
                      / (111320 * cos (math_radians (center_lat cfg))),
     mod360 (bearing + 90))).
  exists (map f (range (total_pts cfg))). split; [| split].
  - unfold gen_circle. apply for_each_map. intros i Hi.
    apply range_In in Hi.
    rewrite truediv_ok by (apply not_0_IZR; lia). simpl.
    rewrite meters_to_latlon_offset_ok by assumption. simpl.
    rewrite pymod_360. reflexivity.
  - now rewrite length_map, range_length.
  - intros i Hi. simpl. now rewrite map_range_nth by assumption.
Qed.

Lemma cos_radians_0 : cos (math_radians 0) <> 0.
Proof.
  unfold math_radians. rewrite Rmult_0_l, cos_0. lra.
Qed.

Lemma circle_waypoints_witness :
  exists pts,
    gen_circle (sample_config "circle" 360 1 90) = Ok pts /\
    List.length pts = 360%nat /\
    nth_error pts 90
    = Some (0 + 60 * cos (math_radians (90 / 360 * 360)) / 111320,
            - (12276394 / 100000)
            + 60 * sin (math_radians (90 / 360 * 360))
              / (111320 * cos (math_radians 0)),
            mod360 (90 / 360 * 360 + 90)).
Proof.
  destruct (circle_waypoints (sample_config "circle" 360 1 90) cos_radians_0)
    as (pts & Hgen & Hlen & Hnth).
  exists pts. split; [exact Hgen |]. split; [exact Hlen |].
  apply (Hnth 90%nat). reflexivity.
Defined.

(** C7, as stated, fails: a straight flight at bearing 450 has the heading
    90 at its waypoint, not the configured bearing. *)
Lemma straight_heading_counterexample :
  (exists lat lon,
     gen_straight (sample_config "straight" 1 1 450) = Ok [(lat, lon, 90)]) /\
  90 <> bearing_deg (sample_config "straight" 1 1 450).
Proof.
  split.
  - unfold gen_straight, total_pts. simpl.
    rewrite truediv_ok by lra. simpl.
    rewrite meters_to_latlon_offset_ok by apply cos_radians_0. simpl.
    rewrite pymod_360, mod360_450. simpl. eauto.
  - simpl. lra.
Qed.

(** C7, amended. On a straight path with at least one sample and a start
    latitude of non-zero cosine, the total distance is
    [base_speed * duration]; waypoint [i] is the start point displaced by
    [i * (total_distance / total_pts)] metres along the configured bearing;
    and every heading is the bearing reduced modulo 360, which is the
    bearing itself when it lies in [0, 360). *)
Theorem straight_waypoints (cfg : FlightConfig.t) :
  (0 < total_pts cfg)%Z ->
  cos (math_radians (start_lat cfg)) <> 0 ->
  let total_dist := SpeedProfile.base (speed cfg) * IZR (duration cfg) in
  exists pts,
    gen_straight cfg = Ok pts /\
    List.length pts = Z.to_nat (total_pts cfg) /\
    (forall i : nat, (Z.of_nat i < total_pts cfg)%Z ->
      let d := total_dist / IZR (total_pts cfg) * IZR (Z.of_nat i) in
      nth_error pts i
      = Some (start_lat cfg + d * cos (math_radians (bearing_deg cfg)) / 111320,
              start_lon cfg + d * sin (math_radians (bearing_deg cfg))
                              / (111320 * cos (math_radians (start_lat cfg))),
              mod360 (bearing_deg cfg))) /\
    (0 <= bearing_deg cfg < 360 -> mod360 (bearing_deg cfg) = bearing_deg cfg).
Proof.
  intros Htot Hc total_dist.
  pose (f := fun i : Z =>
    let d := total_dist / IZR (total_pts cfg) * IZR i in
    (start_lat cfg + d * cos (math_radians (bearing_deg cfg)) / 111320,
     start_lon cfg + d * sin (math_radians (bearing_deg cfg))
                     / (111320 * cos (math_radians (start_lat cfg))),
     mod360 (bearing_deg cfg))).
  exists (map f (range (total_pts cfg))). split; [| split; [| split]].
  - unfold gen_straight. fold total_dist.
    rewrite truediv_ok by (apply not_0_IZR; lia). simpl.
    apply for_each_map. intros i Hi.
    rewrite meters_to_latlon_offset_ok by assumption. simpl.
    rewrite pymod_360. reflexivity.
  - now rewrite length_map, range_length.
  - intros i Hi. simpl. now rewrite map_range_nth by assumption.
  - apply mod360_small.
Qed.

Lemma straight_waypoints_witness :
  exists pts,
    gen_straight (sample_config "straight" 120 1 90) = Ok pts /\
    List.length pts = 120%nat /\
    nth_error pts 7
    = Some (0 + 5 * 120 / 120 * 7 * cos (math_radians 90) / 111320,
            - (12276394 / 100000)
            + 5 * 120 / 120 * 7 * sin (math_radians 90)
              / (111320 * cos (math_radians 0)),
            mod360 90).
Proof.
  assert (Htot : (0 < total_pts (sample_config "straight" 120 1 90))%Z)
    by reflexivity.
  destruct (straight_waypoints (sample_config "straight" 120 1 90) Htot cos_radians_0)
    as (pts & Hgen & Hlen & Hnth & _).
  exists pts. split; [exact Hgen |]. split; [exact Hlen |].
  apply (Hnth 7%nat). reflexivity.
Defined.

(* ------------------------------------------------------------------ *)
(** ** The triangle path *)

Lemma pad_tail_step (total : Z) (out : list Waypoint) :
  pad_tail total out
  = if Z_lt_dec (Z.of_nat (List.length out)) total
    then w <- last_item out ;; pad_tail total (out ++ [w])
    else Ok out.
Proof.
  rewrite pad_tail_equation_1.
  destruct (Z_lt_dec (Z.of_nat (List.length out)) total); simpl; [| reflexivity].
  destruct (last_item out); reflexivity.
Qed.

Lemma last_item_app {A : Type} (xs : list A) (x : A) : last_item (xs ++ [x]) = Ok x.
Proof.
  unfold last_item. now rewrite rev_app_distr.
Qed.

Lemma last_item_nonempty {A : Type} (xs : list A) :
  xs <> [] -> exists x, last_item xs = Ok x.
Proof.
  intros H. destruct (exists_last H) as (ys & y & ->).
  exists y. apply last_item_app.
Qed.

Lemma pad_tail_full (total : Z) (out : list Waypoint) :
  (total <= Z.of_nat (List.length out))%Z -> pad_tail total out = Ok out.
Proof.
  intros H. rewrite pad_tail_step.
  destruct (Z_lt_dec (Z.of_nat (List.length out)) total); [lia | reflexivity].
Qed.

(** The loop appends the last item until the length reaches [total]. *)
Lemma pad_tail_spec (total : Z) (n : nat) :
  forall (out : list Waypoint) (w : Waypoint),
    last_item out = Ok w ->
    Z.to_nat (total - Z.of_nat (List.length out)) = n ->
    pad_tail total out = Ok (out ++ repeat w n).
Proof.
  induction n as [| n IH]; intros out w Hlast Hn.
  - rewrite pad_tail_full by lia. simpl. now rewrite app_nil_r.
  - rewrite pad_tail_step.
    destruct (Z_lt_dec (Z.of_nat (List.length out)) total) as [Hlt | Hge]; [| lia].
    rewrite Hlast. simpl.
    rewrite (IH (out ++ [w]) w).
    + now rewrite <- app_assoc.
    + apply last_item_app.
    + rewrite length_app. simpl. lia.
Qed.

Lemma for_each_concat_length {A B : Type} (body : A -> result (list B)) (n : nat)
    (xs : list A) (yss : list (list B)) :
  (forall x ys, In x xs -> body x = Ok ys -> List.length ys = n) ->
  for_each body xs = Ok yss ->
  List.length (List.concat yss) = (List.length xs * n)%nat.
Proof.
  revert yss. induction xs as [| x rest IH]; intros yss Hb H; simpl in H.
  - now injection H as <-.
  - bind_inv H. bind_inv H. injection H as <-. simpl.
    rewrite length_app, (Hb x a (or_introl eq_refl) Ha).
    rewrite (IH a0); [reflexivity | | assumption].
    intros x' ys Hin. apply Hb. now right.
Qed.

Lemma pts_per_edge_nonzero (cfg : FlightConfig.t) : pts_per_edge cfg <> 0%Z.
Proof.
  unfold pts_per_edge, or_else.
  destruct (Z.eqb_spec (total_pts cfg / 3) 0); lia.
Qed.

(** What [gen_triangle] returns is the padding of its computed waypoints,
    [pts_per_edge] on each of the three edges. *)
Lemma gen_triangle_inv (cfg : FlightConfig.t) (pts : list Waypoint) :
  gen_triangle cfg = Ok pts ->
  exists computed,
    List.length computed = (3 * Z.to_nat (pts_per_edge cfg))%nat /\
    pad_tail (total_pts cfg) computed = Ok pts.
Proof.
  unfold gen_triangle. fold (pts_per_edge cfg). intros H.
  bind_inv H. bind_inv H. rename a0 into edges.
  exists (List.concat edges). split; [| exact H].
  apply (for_each_concat_length _ (Z.to_nat (pts_per_edge cfg))) in Ha0.
  - exact Ha0.
  - intros e ys _ He.
    bind_inv He. destruct a0 as [lat1 lon1].
    bind_inv He. destruct a0 as [lat2 lon2].
    apply for_each_length in He. now rewrite range_length in He.
Qed.

Lemma sqrt_3_nonzero : sqrt 3 <> 0.
Proof.
  pose proof (sqrt_lt_R0 3). lra.
Qed.

Lemma gen_triangle_total (cfg : FlightConfig.t) :
  cos (math_radians (center_lat cfg)) <> 0 ->
  exists pts, gen_triangle cfg = Ok pts.
Proof.
  intros Hc. unfold gen_triangle. fold (pts_per_edge cfg).
  match goal with
  | |- context [for_each ?body (range 3)] =>
      destruct (for_each_total body (range 3)) as [verts Hverts]
  end.
  { intros k _. rewrite truediv_ok by apply sqrt_3_nonzero. simpl.
    rewrite meters_to_latlon_offset_ok by assumption. simpl. eauto. }
  rewrite Hverts. cbn [bind].
  pose proof (for_each_length _ _ _ Hverts) as Hlen.
  rewrite range_length in Hlen.
  match goal with
  | |- context [for_each ?body (range 3)] =>
      destruct (for_each_total body (range 3)) as [edges Hedges]
  end.
  { intros e He. apply range_In in He.
    assert (Hitem : forall i, (0 <= i < 3)%Z -> exists v, item verts i = Ok v).
    { intros i Hi. unfold item.
      destruct (nth_error verts (Z.to_nat i)) as [v |] eqn:Hv; [eauto |].
      apply nth_error_None in Hv. lia. }
    destruct (Hitem e He) as [[lat1 lon1] ->]. simpl.
    destruct (Hitem ((e + 1) mod 3)%Z) as [[lat2 lon2] ->];
      [apply Z.mod_pos_bound; lia |]. simpl.
    apply for_each_total. intros j _.
    rewrite truediv_ok by (apply not_0_IZR, pts_per_edge_nonzero). simpl.
    rewrite pymod_360. simpl. eauto. }
  rewrite Hedges. cbn [bind].
  apply (for_each_concat_length _ (Z.to_nat (pts_per_edge cfg))) in Hedges.
  - rewrite range_length in Hedges. change (Z.to_nat 3) with 3%nat in Hedges.
    destruct (Z_lt_dec (Z.of_nat (List.length (List.concat edges))) (total_pts cfg))
      as [Hlt | Hge].
    + destruct (last_item_nonempty (List.concat edges)) as [w Hw].
      { intros Hnil. rewrite Hnil in Hedges, Hlt. simpl in Hedges, Hlt.
        assert (Hq : (0 <= total_pts cfg / 3)%Z) by (apply Z.div_pos; lia).
        unfold pts_per_edge, or_else in Hedges.
        destruct (Z.eqb_spec (total_pts cfg / 3) 0); lia. }
      eexists. now apply (pad_tail_spec _ _ _ w Hw eq_refl).
    + eexists. apply pad_tail_full. unfold Waypoint in *. lia.
  - intros e ys _ He.
    bind_inv He. destruct a as [lat1 lon1].
    bind_inv He. destruct a as [lat2 lon2].
    apply for_each_length in He. now rewrite range_length in He.
Qed.

Lemma gen_triangle_length (cfg : FlightConfig.t) (pts : list Waypoint) :
  gen_triangle cfg = Ok pts ->
  (0 <= total_pts cfg)%Z ->
  Z.of_nat (List.length pts) = Z.max (total_pts cfg) (3 * pts_per_edge cfg).
Proof.
  intros H Htot. apply gen_triangle_inv in H as (computed & Hlen & Hpad).
  assert (Hppe : (0 < pts_per_edge cfg)%Z).
  { assert (Hq : (0 <= total_pts cfg / 3)%Z) by (apply Z.div_pos; lia).
    unfold pts_per_edge, or_else.
    destruct (Z.eqb_spec (total_pts cfg / 3) 0); lia. }
  destruct (Z_lt_dec (Z.of_nat (List.length computed)) (total_pts cfg)) as [Hlt | Hge].
  - destruct (last_item_nonempty computed) as [w Hw].
    { intros ->. simpl in Hlen. lia. }
    rewrite (pad_tail_spec _ _ _ w Hw eq_refl) in Hpad. injection Hpad as <-.
    rewrite length_app, repeat_length. lia.
  - rewrite pad_tail_full in Hpad by lia. injection Hpad as <-. lia.
Qed.

(** With at least three samples the output is the [3 * (total // 3)]
    computed waypoints followed by [total % 3] copies of the last one. *)
Lemma gen_triangle_padding (cfg : FlightConfig.t) (pts : list Waypoint) :
  gen_triangle cfg = Ok pts ->
  (3 <= total_pts cfg)%Z ->
  exists computed w,
    pts = computed ++ repeat w (Z.to_nat (total_pts cfg mod 3)) /\
    Z.of_nat (List.length computed) = (3 * (total_pts cfg / 3))%Z /\
    last_item computed = Ok w.
Proof.
  intros H Htot. apply gen_triangle_inv in H as (computed & Hlen & Hpad).
  assert (Hq : (1 <= total_pts cfg / 3)%Z)
    by (apply Z.div_le_lower_bound; lia).
  assert (Hppe : pts_per_edge cfg = (total_pts cfg / 3)%Z).
  { unfold pts_per_edge, or_else.
    destruct (Z.eqb_spec (total_pts cfg / 3) 0); lia. }
  rewrite Hppe in Hlen.
  destruct (last_item_nonempty computed) as [w Hw].
  { intros ->. simpl in Hlen. lia. }
  exists computed, w.
  rewrite (pad_tail_spec _ _ _ w Hw eq_refl) in Hpad. injection Hpad as <-.
  split; [| split; [lia | exact Hw]].
  do 2 f_equal. rewrite Z.mod_eq by lia. lia.
Qed.

(* ------------------------------------------------------------------ *)
(** ** Rounding *)

Lemma round_half_even_mono (x y : R) :
  x <= y -> (round_half_even x <= round_half_even y)%Z.
Proof.
  intros Hxy. pose proof (Zfloor_le x y Hxy) as Hf.
  pose proof (Zfloor_bound x) as Hx. pose proof (Zfloor_bound y) as Hy.
  unfold round_half_even.
  destruct (Z.eq_dec (Zfloor x) (Zfloor y)) as [Heq | Hne].
  - rewrite Heq in *.
    destruct (Rlt_dec (x - IZR (Zfloor y)) (1 / 2)),
             (Rlt_dec (y - IZR (Zfloor y)) (1 / 2)),
             (Rlt_dec (1 / 2) (x - IZR (Zfloor y))),
             (Rlt_dec (1 / 2) (y - IZR (Zfloor y)));
      try lia; try lra; destruct (Z.even (Zfloor y)); lia.
  - assert (Hlt : (Zfloor x + 1 <= Zfloor y)%Z) by lia.
    destruct (Rlt_dec (x - IZR (Zfloor x)) (1 / 2)),
             (Rlt_dec (y - IZR (Zfloor y)) (1 / 2)),
             (Rlt_dec (1 / 2) (x - IZR (Zfloor x))),
             (Rlt_dec (1 / 2) (y - IZR (Zfloor y)));
      try lia; destruct (Z.even (Zfloor x)), (Z.even (Zfloor y)); lia.
Qed.

Lemma round_mono (x y : R) (ndigits : nat) :
  x <= y -> round x ndigits <= round y ndigits.
Proof.
  intros Hxy. unfold round.
  assert (Hp : 0 < 10 ^ ndigits) by (apply pow_lt; lra).
  apply Rmult_le_compat_r; [left; now apply Rinv_0_lt_compat |].
  apply IZR_le, round_half_even_mono.
  apply Rmult_le_compat_r; lra.
Qed.

Lemma round_half_even_error (x : R) : Rabs (IZR (round_half_even x) - x) <= 1 / 2.
Proof.
  pose proof (Zfloor_bound x) as [Hlo Hhi].
  unfold round_half_even. apply Rabs_le.
  destruct (Rlt_dec (x - IZR (Zfloor x)) (1 / 2)); [lra |].
  destruct (Rlt_dec (1 / 2) (x - IZR (Zfloor x))); [rewrite plus_IZR; lra |].
  destruct (Z.even (Zfloor x)); [lra | rewrite plus_IZR; lra].
Qed.

(** Rounding to [ndigits] decimals moves a value by half a unit of the last
    decimal at most. *)
Lemma round_error (x : R) (ndigits : nat) :
  Rabs (round x ndigits - x) <= 1 / (2 * 10 ^ ndigits).
Proof.
  assert (Hp : 0 < 10 ^ ndigits) by (apply pow_lt; lra).
  pose proof (round_half_even_error (x * 10 ^ ndigits)) as H.
  assert (Hb : - (1 / 2) <= IZR (round_half_even (x * 10 ^ ndigits)) - x * 10 ^ ndigits
               <= 1 / 2)
    by (unfold Rabs in H; destruct (Rcase_abs _) in H; lra).
  unfold round.
  replace (IZR (round_half_even (x * 10 ^ ndigits)) / 10 ^ ndigits - x)
    with ((IZR (round_half_even (x * 10 ^ ndigits)) - x * 10 ^ ndigits)
          * / 10 ^ ndigits) by (field; lra).
  replace (1 / (2 * 10 ^ ndigits)) with (1 / 2 * / 10 ^ ndigits) by (field; lra).
  assert (Hq : 0 < / 10 ^ ndigits) by now apply Rinv_0_lt_compat.
  apply Rabs_le. split; nra.
Qed.

(* ------------------------------------------------------------------ *)
(** ** The profiles never raise on periods that are not zero *)

Lemma speed_ok (p : SpeedProfile.t) (tm : R) :
  SpeedProfile.sine_period p <> 0 ->
  SpeedProfile.speed p tm
  = Ok (SpeedProfile.base p
        + SpeedProfile.sine_amp p * sin (2 * PI * tm / SpeedProfile.sine_period p)).
Proof.
  intros Hp. unfold SpeedProfile.speed. now rewrite truediv_ok by assumption.
Qed.

Lemma speed_inv (p : SpeedProfile.t) (tm s : R) :
  SpeedProfile.speed p tm = Ok s ->
  s = SpeedProfile.base p
      + SpeedProfile.sine_amp p * sin (2 * PI * tm / SpeedProfile.sine_period p).
Proof.
  unfold SpeedProfile.speed. intros H. bind_inv H.
  apply truediv_inv in Ha as [_ ->]. now injection H as <-.
Qed.

Lemma height_total (p : AltitudeProfile.t) (tm : R) :
  (AltitudeProfile.sine_amp p <> 0 -> AltitudeProfile.sine_period p <> 0) ->
  exists h, height p tm = Ok h.
Proof.
  intros Hp. unfold height.
  destruct (Rle_dec tm 0); [eauto |].
  destruct (Rlt_dec 0 (climb_rate p)).
  - rewrite truediv_ok by lra. simpl.
    destruct (Req_dec_T (AltitudeProfile.sine_amp p) 0); [eauto |].
    rewrite truediv_ok by auto. simpl. eauto.
  - simpl. destruct (Req_dec_T (AltitudeProfile.sine_amp p) 0); [eauto |].
    rewrite truediv_ok by auto. simpl. eauto.
Qed.

Lemma roll_total (g : GimbalProfile.t) (tm : R) :
  GimbalProfile.roll_period g <> 0 -> exists r, GimbalProfile.roll g tm = Ok r.
Proof.
  intros Hp. unfold GimbalProfile.roll. rewrite truediv_ok by assumption.
  simpl. eauto.
Qed.

Lemma pitch_total (g : GimbalProfile.t) (tm : R) :
  (GimbalProfile.pitch_mode g = "oscillating"%string ->
   GimbalProfile.pitch_period g <> 0) ->
  exists r, GimbalProfile.pitch g tm = Ok r.
Proof.
  intros Hp. unfold GimbalProfile.pitch.
  destruct (GimbalProfile.pitch_mode g =? "static")%string; [eauto |].
  destruct (String.eqb_spec (GimbalProfile.pitch_mode g) "oscillating"); [| eauto].
  rewrite truediv_ok by auto. simpl. eauto.
Qed.

Lemma yaw_total (g : GimbalProfile.t) (heading tm : R) :
  (GimbalProfile.yaw_mode g = "oscillating"%string ->
   GimbalProfile.yaw_period g <> 0) ->
  exists r, GimbalProfile.yaw g heading tm = Ok r.
Proof.
  intros Hp. unfold GimbalProfile.yaw.
  destruct (GimbalProfile.yaw_mode g =? "static")%string;
    [rewrite pymod_360; eauto |].
  destruct (String.eqb_spec (GimbalProfile.yaw_mode g) "oscillating").
  - rewrite truediv_ok by auto. simpl. rewrite pymod_360. eauto.
  - destruct (GimbalProfile.yaw_mode g =? "rotating")%string;
      rewrite pymod_360; eauto.
Qed.

Lemma zoom_total (z : ZoomProfile.t) (tm : R) :
  (mode z = "oscillating"%string -> period z <> 0) ->
  exists r, zoom_factor z tm = Ok r.
Proof.
  intros Hp. unfold zoom_factor.
  destruct (mode z =? "static")%string; [eauto |].
  destruct (String.eqb_spec (mode z) "oscillating"); [| eauto].
  rewrite truediv_ok by auto. simpl. eauto.
Qed.

(* ------------------------------------------------------------------ *)
(** ** The entry loop *)

(** One turn of the loop that did not raise. *)
Lemma entries_loop_cons (cfg : FlightConfig.t) (start_time : datetime) (i : Z)
    (flight_dist : R) (wp : Waypoint) (rest : list Waypoint) (es : list Entry.t) :
  entries_loop cfg start_time i flight_dist (wp :: rest) = Ok es ->
  exists s e es',
    IZR (hz cfg) <> 0 /\
    SpeedProfile.speed (speed cfg) (IZR i / IZR (hz cfg)) = Ok s /\
    es = e :: es' /\
    Entry.flight_distance e = round (flight_dist + s / IZR (hz cfg)) 1 /\
    Entry.speed e = round s 2 /\
    entries_loop cfg start_time (i + 1) (flight_dist + s / IZR (hz cfg)) rest = Ok es'.
Proof.
  destruct wp as [[lat lon] heading]. simpl. intros H.
  bind_inv H. apply truediv_inv in Ha as [Hhz ->].
  bind_inv H. rename a into s, Ha into Hs.
  bind_inv H. apply truediv_inv in Ha as [_ ->].
  do 7 bind_inv H. injection H as <-.
  eexists s, _, _. repeat split; try eassumption; reflexivity.
Qed.

Lemma entries_loop_length (cfg : FlightConfig.t) (start_time : datetime)
    (path_pts : list Waypoint) :
  forall (i : Z) (flight_dist : R) (es : list Entry.t),
    entries_loop cfg start_time i flight_dist path_pts = Ok es ->
    List.length es = List.length path_pts.
Proof.
  induction path_pts as [| wp rest IH]; intros i fd es H.
  - simpl in H. now injection H as <-.
  - apply entries_loop_cons in H as (s & e & es' & _ & _ & -> & _ & _ & H).
    simpl. f_equal. now apply (IH _ _ _ H).
Qed.

Lemma entries_loop_total (cfg : FlightConfig.t) (start_time : datetime)
    (path_pts : list Waypoint) :
  hz cfg <> 0%Z -> profiles_ok cfg ->
  forall (i : Z) (flight_dist : R),
    exists es, entries_loop cfg start_time i flight_dist path_pts = Ok es.
Proof.
  intros Hhz (Hs & Ha & Hr & Hy & Hp & Hz).
  induction path_pts as [| [[lat lon] heading] rest IH]; intros i fd; simpl.
  - eauto.
  - rewrite truediv_ok by (now apply not_0_IZR). cbn [bind].
    rewrite speed_ok by assumption. cbn [bind].
    rewrite truediv_ok by (now apply not_0_IZR). cbn [bind].
    destruct (height_total (altitude cfg) (IZR i / IZR (hz cfg)) Ha) as [h ->].
    destruct (roll_total (gimbal cfg) (IZR i / IZR (hz cfg)) Hr) as [r ->].
    destruct (pitch_total (gimbal cfg) (IZR i / IZR (hz cfg)) Hp) as [p ->].
    destruct (yaw_total (gimbal cfg) heading (IZR i / IZR (hz cfg)) Hy) as [y ->].
    destruct (zoom_total (zoom cfg) (IZR i / IZR (hz cfg)) Hz) as [z ->].
    cbn [bind].
    match goal with
    | |- context [entries_loop cfg start_time (i + 1) ?d rest] =>
        destruct (IH (i + 1)%Z d) as [es ->]
    end.
    cbn [bind]. eauto.
Qed.

(** The distance and the speed of the entry at position [k]: the distance
    is the rounded sum of the unrounded steps, the speed is rounded on its
    own. *)
Lemma entries_loop_distance (cfg : FlightConfig.t) (start_time : datetime)
    (path_pts : list Waypoint) :
  forall (i : Z) (flight_dist : R) (es : list Entry.t),
    entries_loop cfg start_time i flight_dist path_pts = Ok es ->
    forall (k : nat) (e : Entry.t), nth_error es k = Some e ->
      Entry.flight_distance e = round (flight_dist + sum_steps cfg i (S k)) 1 /\
      Entry.speed e
      = round (speed_at cfg (IZR (i + Z.of_nat k) / IZR (hz cfg))) 2.
Proof.
  induction path_pts as [| wp rest IH]; intros i fd es H k e Hk.
  - simpl in H. injection H as <-. destruct k; discriminate.
  - apply entries_loop_cons in H as (s & e0 & es' & _ & Hs & -> & Hfd & Hsp & H).
    apply speed_inv in Hs. fold (speed_at cfg (IZR i / IZR (hz cfg))) in Hs.
    destruct k as [| k]; simpl in Hk.
    + injection Hk as <-. rewrite Hfd, Hsp, Hs. split.
      * f_equal. simpl. lra.
      * now rewrite Z.add_0_r.
    + destruct (IH _ _ _ H k e Hk) as [Hd Hv]. rewrite Hd, Hv, Hs. split.
      * f_equal. simpl. lra.
      * replace (i + 1 + Z.of_nat k)%Z with (i + Z.of_nat (S k))%Z by lia. reflexivity.
Qed.

Lemma sum_steps_extend (cfg : FlightConfig.t) (n d : nat) :
  forall i : Z,
    (forall m : nat, (n <= m < n + d)%nat ->
       0 <= speed_at cfg (IZR (i + Z.of_nat m) / IZR (hz cfg)) / IZR (hz cfg)) ->
    sum_steps cfg i n <= sum_steps cfg i (n + d).
Proof.
  induction n as [| n IHn].
  - induction d as [| d IHd]; intros i Hpos; simpl; [lra |].
    assert (H0 := Hpos 0%nat). rewrite Z.add_0_r in H0.
    assert (Hrest : 0 <= sum_steps cfg (i + 1) d).
    { apply (IHd (i + 1)%Z). intros m Hm.
      replace (i + 1 + Z.of_nat m)%Z with (i + Z.of_nat (S m))%Z by lia.
      apply Hpos. lia. }
    simpl in Hrest. specialize (H0 ltac:(lia)). lra.
  - intros i Hpos. simpl. apply Rplus_le_compat_l, IHn.
    intros m Hm. replace (i + 1 + Z.of_nat m)%Z with (i + Z.of_nat (S m))%Z by lia.
    apply Hpos. lia.
Qed.

(* ------------------------------------------------------------------ *)
(** ** [generate_entries] *)

Lemma getitem_PATHS_inv (key : string) (gen : PathFunc) :
  getitem PATHS key = Ok gen ->
  (key = "circle"%string /\ gen = gen_circle) \/
  (key = "straight"%string /\ gen = gen_straight) \/
  (key = "triangle"%string /\ gen = gen_triangle) \/
  (key = "hover"%string /\ gen = gen_hover).
Proof.
  unfold PATHS, getitem.
  destruct (String.eqb_spec "circle" key) as [<- | _];
    [intros H; injection H as <-; tauto |].
  destruct (String.eqb_spec "straight" key) as [<- | _];
    [intros H; injection H as <-; tauto |].
  destruct (String.eqb_spec "triangle" key) as [<- | _];
    [intros H; injection H as <-; tauto |].
  destruct (String.eqb_spec "hover" key) as [<- | _];
    [intros H; injection H as <-; tauto |].
  discriminate.
Qed.

(** A call that returns has looked the generator up, run it, read the
    clock once and run the loop from index 0 and distance 0. *)
Lemma generate_entries_inv (cfg : FlightConfig.t) (w w' : World) (es : list Entry.t) :
  generate_entries cfg w = (Ok es, w') ->
  exists gen path_pts,
    getitem PATHS (path_type cfg) = Ok gen /\
    gen cfg = Ok path_pts /\
    entries_loop cfg (current_time w) 0 0 path_pts = Ok es /\
    w' = mkWorld (clock w) (S (reads w)).
Proof.
  unfold generate_entries.
  destruct (getitem PATHS (path_type cfg)) as [gen |] eqn:Hget; [| discriminate].
  destruct (gen cfg) as [pts |] eqn:Hgen; [| discriminate].
  simpl. intros H. injection H as H <-.
  exists gen, pts. auto.
Qed.

Lemma gen_circle_total (cfg : FlightConfig.t) :
  cos (math_radians (center_lat cfg)) <> 0 -> exists pts, gen_circle cfg = Ok pts.
Proof.
  intros Hc. apply for_each_total. intros i Hi. apply range_In in Hi.
  rewrite truediv_ok by (apply not_0_IZR; lia). simpl.
  rewrite meters_to_latlon_offset_ok by assumption. simpl.
  rewrite pymod_360. simpl. eauto.
Qed.

Lemma gen_straight_total (cfg : FlightConfig.t) :
  total_pts cfg <> 0%Z -> cos (math_radians (start_lat cfg)) <> 0 ->
  exists pts, gen_straight cfg = Ok pts.
Proof.
  intros Htot Hc. unfold gen_straight.
  rewrite truediv_ok by (now apply not_0_IZR). simpl.
  apply for_each_total. intros i _.
  rewrite meters_to_latlon_offset_ok by assumption. simpl.
  rewrite pymod_360. simpl. eauto.
Qed.

(** The number of waypoints of a generator that returned. *)
Lemma path_length (cfg : FlightConfig.t) (gen : PathFunc) (pts : list Waypoint) :
  getitem PATHS (path_type cfg) = Ok gen ->
  gen cfg = Ok pts ->
  (0 <= total_pts cfg)%Z ->
  Z.of_nat (List.length pts)
  = if (path_type cfg =? "triangle")%string
    then Z.max (total_pts cfg) (3 * pts_per_edge cfg)
    else total_pts cfg.
Proof.
  intros Hget Hgen Htot.
  apply getitem_PATHS_inv in Hget as [[-> ->] | [[-> ->] | [[-> ->] | [-> ->]]]];
    simpl.
  - apply for_each_length in Hgen. rewrite range_length in Hgen. lia.
  - unfold gen_straight in Hgen. bind_inv Hgen.
    apply for_each_length in Hgen. rewrite range_length in Hgen. lia.
  - now apply gen_triangle_length.
  - unfold gen_hover in Hgen. bind_inv Hgen. injection Hgen as <-.
    rewrite repeat_length. lia.
Qed.

Lemma generate_entries_total (cfg : FlightConfig.t) (w : World) :
  (0 < duration cfg)%Z -> (0 < hz cfg)%Z ->
  In (path_type cfg) ["circle"; "straight"; "triangle"; "hover"]%string ->
  profiles_ok cfg -> geometry_ok cfg ->
  exists es, generate_entries cfg w = (Ok es, mkWorld (clock w) (S (reads w))).
Proof.
  intros Hd Hhz Hin Hprof Hgeo.
  assert (Hgen : exists gen pts,
            getitem PATHS (path_type cfg) = Ok gen /\ gen cfg = Ok pts).
  { unfold geometry_ok, reference_latitude in Hgeo.
    simpl in Hin. destruct Hin as [Hp | [Hp | [Hp | [Hp | []]]]];
      rewrite <- Hp in *; simpl in Hgeo.
    - destruct Hgeo as [Hg | Hg]; [discriminate |].
      destruct (gen_circle_total cfg Hg) as [pts Hpts]. now exists gen_circle, pts.
    - destruct Hgeo as [Hg | Hg]; [discriminate |].
      destruct (gen_straight_total cfg) as [pts Hpts];
        [unfold total_pts; lia | assumption |].
      now exists gen_straight, pts.
    - destruct Hgeo as [Hg | Hg]; [discriminate |].
      destruct (gen_triangle_total cfg Hg) as [pts Hpts]. now exists gen_triangle, pts.
    - exists gen_hover. unfold gen_hover. rewrite pymod_360. simpl. eauto. }
  destruct Hgen as (gen & pts & Hget & Hpts).
  unfold generate_entries. rewrite Hget, Hpts. simpl.
  destruct (entries_loop_total cfg (current_time w) pts ltac:(lia) Hprof 0%Z 0)
    as [es ->].
  eauto.
Qed.

(** C1, as stated, fails twice over.  A triangle of one sample returns
    three records: the three edges get one sample each and nothing is
    trimmed.  And a configuration whose zoom oscillates with the period zero
    returns no sequence at all: the call raises [ZeroDivisionError]. *)
Lemma entries_length_counterexample :
  (total_pts (sample_config "triangle" 1 1 90) = 1%Z /\
   exists es w',
     generate_entries (sample_config "triangle" 1 1 90) (frozen_world 0%Z)
     = (Ok es, w') /\
     List.length es = 3%nat) /\
  ((0 < duration zero_period_config)%Z /\ (0 < hz zero_period_config)%Z /\
   fst (generate_entries zero_period_config (frozen_world 0%Z))
   = Raise ZeroDivisionError).
Proof.
  split; [split; [reflexivity |] | split; [reflexivity | split; [reflexivity |]]].
  - destruct (generate_entries_total (sample_config "triangle" 1 1 90) (frozen_world 0%Z))
      as [es Hes].
    + reflexivity.
    + reflexivity.
    + simpl. tauto.
    + unfold profiles_ok. simpl. repeat split; (lra || discriminate).
    + right. apply cos_radians_0.
    + exists es, (mkWorld (clock (frozen_world 0%Z)) (S (reads (frozen_world 0%Z)))).
      split; [exact Hes |].
      apply generate_entries_inv in Hes as (gen & pts & Hget & Hgen & Hloop & _).
      apply entries_loop_length in Hloop.
      pose proof (path_length _ _ _ Hget Hgen ltac:(discriminate)) as Hlen.
      simpl in Hlen. rewrite Hloop.
      change (pts_per_edge (sample_config "triangle" 1 1 90)) with 1%Z in Hlen.
      change (total_pts (sample_config "triangle" 1 1 90)) with 1%Z in Hlen.
      lia.
  - unfold generate_entries, zero_period_config. simpl getitem. cbv iota.
    unfold gen_hover. rewrite pymod_360. simpl.
    rewrite truediv_ok by lra. cbn [bind].
    rewrite speed_ok by (simpl; lra). cbn [bind].
    rewrite truediv_ok by lra. cbn [bind].
    unfold height. destruct (Rle_dec (0 / 1) 0) as [_ | H]; [| lra]. cbn [bind].
    unfold GimbalProfile.roll. simpl GimbalProfile.roll_period.
    rewrite truediv_ok by lra. cbn [bind].
    unfold GimbalProfile.pitch, GimbalProfile.yaw. simpl.
    rewrite pymod_360. cbn [bind].
    unfold zoom_factor. simpl. rewrite truediv_zero. reflexivity.
Qed.

(** C1, amended. Take a positive duration and sample rate and one of the
    four path types, the triangle with at least three samples.  Then every
    sequence [generate_entries] returns has exactly [duration * hz]
    records; it does return one when no profile divides by a zero period
    and the reference latitude has a non-zero cosine; and the triangle's
    waypoints are its [3 * (total // 3)] computed ones followed by
    [total % 3] copies of the last computed one. *)
Theorem generate_entries_length (cfg : FlightConfig.t) (w : World) :
  (0 < duration cfg)%Z -> (0 < hz cfg)%Z ->
  In (path_type cfg) ["circle"; "straight"; "triangle"; "hover"]%string ->
  (path_type cfg = "triangle"%string -> (3 <= total_pts cfg)%Z) ->
  (forall es w', generate_entries cfg w = (Ok es, w') ->
     Z.of_nat (List.length es) = (duration cfg * hz cfg)%Z) /\
  (profiles_ok cfg -> geometry_ok cfg ->
   exists es w', generate_entries cfg w = (Ok es, w')) /\
  (forall pts, path_type cfg = "triangle"%string -> gen_triangle cfg = Ok pts ->
     exists computed wp,
       pts = computed ++ repeat wp (Z.to_nat (total_pts cfg mod 3)) /\
       Z.of_nat (List.length computed) = (3 * (total_pts cfg / 3))%Z /\
       last_item computed = Ok wp).
Proof.
  intros Hd Hhz Hin Htri.
  assert (Htot : (0 < total_pts cfg)%Z) by (unfold total_pts; lia).
  split; [| split].
  - intros es w' H.
    apply generate_entries_inv in H as (gen & pts & Hget & Hgen & Hloop & _).
    apply entries_loop_length in Hloop. rewrite Hloop.
    rewrite (path_length _ _ _ Hget Hgen) by lia.
    fold (total_pts cfg).
    destruct (String.eqb_spec (path_type cfg) "triangle") as [Ht | _];
      [| reflexivity].
    specialize (Htri Ht).
    assert (Hq : (1 <= total_pts cfg / 3)%Z) by (apply Z.div_le_lower_bound; lia).
    pose proof (Z.mul_div_le (total_pts cfg) 3 ltac:(lia)) as Hle.
    unfold pts_per_edge, or_else.
    destruct (Z.eqb_spec (total_pts cfg / 3) 0); lia.
  - intros Hprof Hgeo.
    destruct (generate_entries_total cfg w Hd Hhz Hin Hprof Hgeo) as [es Hes].
    eauto.
  - intros pts Ht Hgen. apply gen_triangle_padding; auto.
Qed.

Lemma generate_entries_length_witness :
  let cfg := sample_config "triangle" 10 1 90 in
  (exists es w', generate_entries cfg (frozen_world 0%Z) = (Ok es, w')) /\
  (forall es w', generate_entries cfg (frozen_world 0%Z) = (Ok es, w') ->
     Z.of_nat (List.length es) = 10%Z).
Proof.
  intros cfg.
  assert (Hin : In (path_type cfg) ["circle"; "straight"; "triangle"; "hover"]%string)
    by (simpl; tauto).
  assert (Htri : path_type cfg = "triangle"%string -> (3 <= total_pts cfg)%Z)
    by (intros _; discriminate).
  destruct (generate_entries_length cfg (frozen_world 0%Z) eq_refl eq_refl Hin Htri)
    as (Hlen & Hret & _).
  split; [| exact Hlen].
  apply Hret.
  - unfold profiles_ok. simpl. repeat split; (lra || discriminate).
  - right. apply cos_radians_0.
Defined.

(* ------------------------------------------------------------------ *)
(** ** Flight distance *)

Lemma speed_ok_everywhere (p : SpeedProfile.t) (t0 s : R) :
  SpeedProfile.speed p t0 = Ok s -> SpeedProfile.sine_period p <> 0.
Proof.
  unfold SpeedProfile.speed. intros H. bind_inv H.
  now apply truediv_inv in Ha as [Hp _].
Qed.

Lemma sum_steps_constant_speed (cfg : FlightConfig.t) (n : nat) :
  SpeedProfile.sine_amp (speed cfg) = 0 ->
  forall i : Z,
    sum_steps cfg i n
    = IZR (Z.of_nat n) * (SpeedProfile.base (speed cfg) / IZR (hz cfg)).
Proof.
  intros Ha. induction n as [| n IH]; intros i.
  - simpl. ring.
  - cbn [sum_steps]. rewrite IH, Nat2Z.inj_succ, succ_IZR.
    unfold speed_at. rewrite Ha. unfold Rdiv. ring.
Qed.

(** C5. Let the sample rate be positive, let [generate_entries] return
    [es], and let the speed be non-negative at every sample time.  Then
    [es] has an entry for every waypoint of the selected generator, and the
    [flight_distance] field is non-decreasing along it.  The distance is
    accumulated from the unrounded speeds: at index [k] the field lies
    within its resolution, 0.1, of the sum of the [speed(t_i) / hz] for
    [i <= k], however long the flight, while the [speed] field lies within
    0.01 of the speed. *)
Theorem flight_distance_monotone
    (cfg : FlightConfig.t) (w w' : World) (es : list Entry.t) :
  (0 < hz cfg)%Z ->
  generate_entries cfg w = (Ok es, w') ->
  (forall (i : nat) (s : R), (i < List.length es)%nat ->
     SpeedProfile.speed (speed cfg) (IZR (Z.of_nat i) / IZR (hz cfg)) = Ok s ->
     0 <= s) ->
  (exists gen pts,
     getitem PATHS (path_type cfg) = Ok gen /\
     gen cfg = Ok pts /\
     List.length es = List.length pts) /\
  (forall (j k : nat) (ej ek : Entry.t), (j <= k)%nat ->
     nth_error es j = Some ej -> nth_error es k = Some ek ->
     Entry.flight_distance ej <= Entry.flight_distance ek) /\
  (forall (k : nat) (e : Entry.t), nth_error es k = Some e ->
     Rabs (Entry.flight_distance e - sum_steps cfg 0 (S k)) < 1 / 10 /\
     Rabs (Entry.speed e - speed_at cfg (IZR (Z.of_nat k) / IZR (hz cfg)))
     < 1 / 100).
Proof.
  intros Hhz Hgen Hpos.
  apply generate_entries_inv in Hgen as (gen & pts & Hget & Hpts & Hloop & _).
  assert (Hfield : forall k e, nth_error es k = Some e ->
            Entry.flight_distance e = round (sum_steps cfg 0 (S k)) 1 /\
            Entry.speed e = round (speed_at cfg (IZR (Z.of_nat k) / IZR (hz cfg))) 2).
  { intros k e Hk.
    destruct (entries_loop_distance _ _ _ _ _ _ Hloop k e Hk) as [Hd Hs].
    rewrite Rplus_0_l in Hd. now rewrite Z.add_0_l in Hs. }
  split; [| split].
  - exists gen, pts. split; [exact Hget |]. split; [exact Hpts |].
    now apply entries_loop_length in Hloop.
  - intros j k ej ek Hjk Hj Hk.
    destruct (Hfield j ej Hj) as [-> _]. destruct (Hfield k ek Hk) as [-> _].
    apply round_mono.
    replace (S k) with (S j + (k - j))%nat by lia.
    apply sum_steps_extend. intros m Hm. rewrite Z.add_0_l.
    assert (Hper : SpeedProfile.sine_period (speed cfg) <> 0).
    { destruct pts as [| wp rest].
      - simpl in Hloop. injection Hloop as <-. destruct k; discriminate.
      - apply entries_loop_cons in Hloop as (s & _ & _ & _ & Hs & _).
        now apply speed_ok_everywhere in Hs. }
    assert (Hm' : (m < List.length es)%nat).
    { assert (k < List.length es)%nat by (apply nth_error_Some; congruence). lia. }
    pose proof (Hpos m _ Hm' (speed_ok _ _ Hper)) as Hs.
    fold (speed_at cfg (IZR (Z.of_nat m) / IZR (hz cfg))) in Hs.
    apply Rmult_le_pos; [exact Hs |].
    left. apply Rinv_0_lt_compat. now apply IZR_lt.
  - intros k e Hk. destruct (Hfield k e Hk) as [-> ->].
    pose proof (round_error (sum_steps cfg 0 (S k)) 1) as Hd.
    pose proof (round_error (speed_at cfg (IZR (Z.of_nat k) / IZR (hz cfg))) 2) as Hs.
    cbn [pow] in Hd, Hs. split; lra.
Qed.

Lemma flight_distance_monotone_witness :
  exists es w',
    generate_entries slow_hover (frozen_world 0%Z) = (Ok es, w') /\
    List.length es = 200%nat /\
    (forall (j k : nat) (ej ek : Entry.t), (j <= k)%nat ->
       nth_error es j = Some ej -> nth_error es k = Some ek ->
       Entry.flight_distance ej <= Entry.flight_distance ek) /\
    (forall e : Entry.t, nth_error es 199 = Some e ->
       Entry.speed e < 1 / 50 /\ 7 / 10 < Entry.flight_distance e).
Proof.
  destruct (generate_entries_total slow_hover (frozen_world 0%Z)) as [es Hes].
  - reflexivity.
  - reflexivity.
  - simpl. tauto.
  - unfold profiles_ok. simpl. repeat split; (lra || discriminate).
  - now left.
  - exists es, (mkWorld (clock (frozen_world 0%Z)) (S (reads (frozen_world 0%Z)))).
    split; [exact Hes |].
    destruct (flight_distance_monotone slow_hover _ _ es eq_refl Hes)
      as ((gen & pts & Hget & Hpts & Hlen) & Hmono & Hnear).
    { intros i s _ Hs. apply speed_inv in Hs. simpl in Hs. lra. }
    split; [| split; [exact Hmono |]].
    + pose proof (path_length slow_hover gen pts Hget Hpts ltac:(discriminate))
        as Hl.
      change (Z.of_nat (List.length pts) = 200%Z) in Hl.
      rewrite Hlen. lia.
    + intros e He. destruct (Hnear 199%nat e He) as [Hd Hs].
      rewrite (sum_steps_constant_speed slow_hover 200 eq_refl) in Hd.
      unfold speed_at in Hs. simpl in Hd, Hs.
      rewrite Rmult_0_l, Rplus_0_r in Hs.
      unfold Rabs in Hd, Hs.
      destruct (Rcase_abs _) in Hd; destruct (Rcase_abs _) in Hs; split; lra.
Defined.

(* ------------------------------------------------------------------ *)
(** ** Determinism *)

Lemma entries_loop_modulo_datetime (cfg : FlightConfig.t) (t1 t2 : datetime)
    (path_pts : list Waypoint) :
  forall (i : Z) (flight_dist : R),
    fmap (map without_datetime) (entries_loop cfg t1 i flight_dist path_pts)
    = fmap (map without_datetime) (entries_loop cfg t2 i flight_dist path_pts).
Proof.
  induction path_pts as [| [[lat lon] heading] rest IH]; intros i fd;
    [reflexivity |].
  simpl.
  destruct (truediv (IZR i) (IZR (hz cfg))) as [t |]; [| reflexivity]. cbn [bind].
  destruct (SpeedProfile.speed (speed cfg) t) as [s |]; [| reflexivity]. cbn [bind].
  destruct (truediv s (IZR (hz cfg))) as [step |]; [| reflexivity]. cbn [bind].
  destruct (height (altitude cfg) t) as [h |]; [| reflexivity]. cbn [bind].
  destruct (GimbalProfile.roll (gimbal cfg) t) as [r |]; [| reflexivity]. cbn [bind].
  destruct (GimbalProfile.pitch (gimbal cfg) t) as [p |]; [| reflexivity]. cbn [bind].
  destruct (GimbalProfile.yaw (gimbal cfg) heading t) as [y |]; [| reflexivity].
  cbn [bind].
  destruct (zoom_factor (zoom cfg) t) as [z |]; [| reflexivity]. cbn [bind].
  specialize (IH (i + 1)%Z (fd + step)).
  destruct (entries_loop cfg t1 (i + 1) (fd + step) rest) as [es1 | e1],
           (entries_loop cfg t2 (i + 1) (fd + step) rest) as [es2 | e2];
    simpl in IH |- *; try discriminate.
  - injection IH as IH. unfold fmap. simpl. now rewrite IH.
  - exact IH.
Qed.

(** C9. For one configuration, the outcomes of [generate_entries] in any
    two worlds agree once the timestamp field is blanked, and agree
    outright when the two clocks show the same time.  The clock is the only
    part of the world the call touches: it is read once when the path
    generator returns, and not at all otherwise. *)
Theorem generate_entries_deterministic (cfg : FlightConfig.t) (w1 w2 : World) :
  fmap (map without_datetime) (fst (generate_entries cfg w1))
  = fmap (map without_datetime) (fst (generate_entries cfg w2)) /\
  (current_time w1 = current_time w2 ->
   fst (generate_entries cfg w1) = fst (generate_entries cfg w2)) /\
  (snd (generate_entries cfg w1) = mkWorld (clock w1) (S (reads w1)) \/
   snd (generate_entries cfg w1) = w1 /\
   exists e, fst (generate_entries cfg w1) = Raise e).
Proof.
  unfold generate_entries.
  destruct (getitem PATHS (path_type cfg)) as [gen | e].
  - destruct (gen cfg) as [pts | e]; simpl.
    + split; [apply entries_loop_modulo_datetime |]. split.
      * now intros ->.
      * now left.
    + split; [reflexivity |]. split; [reflexivity |]. right. eauto.
  - simpl. split; [reflexivity |]. split; [reflexivity |]. right. eauto.
Qed.

Lemma generate_entries_deterministic_witness :
  let cfg := sample_config "hover" 2 1 90 in
  let late := mkWorld (fun n => (4 + Z.of_nat n)%Z) 3 in
  fst (generate_entries cfg (frozen_world 7%Z)) = fst (generate_entries cfg late).
Proof.
  intros cfg late.
  destruct (generate_entries_deterministic cfg (frozen_world 7%Z) late)
    as (_ & Hsame & _).
  apply Hsame. reflexivity.
Defined.

(* ------------------------------------------------------------------ *)
(** * Further properties of the profiles *)

Lemma amp_sin_bound (a x : R) : - Rabs a <= a * sin x <= Rabs a.
Proof.
  pose proof (SIN_bound x) as [Hlo Hhi].
  unfold Rabs. destruct (Rcase_abs a); split; nra.
Qed.

(** X1. With a period that is not zero the speed never raises and stays
    within the amplitude of the base speed, and the speed at time 0 is the
    base speed. *)
Theorem speed_within_amplitude (p : SpeedProfile.t) (tm : R) :
  SpeedProfile.sine_period p <> 0 ->
  (exists v, SpeedProfile.speed p tm = Ok v /\
     SpeedProfile.base p - Rabs (SpeedProfile.sine_amp p) <= v
     <= SpeedProfile.base p + Rabs (SpeedProfile.sine_amp p)) /\
  SpeedProfile.speed p 0 = Ok (SpeedProfile.base p).
Proof.
  intros Hp. split.
  - rewrite speed_ok by assumption. eexists. split; [reflexivity |].
    pose proof (amp_sin_bound (SpeedProfile.sine_amp p)
                  (2 * PI * tm / SpeedProfile.sine_period p)).
    lra.
  - rewrite speed_ok by assumption. f_equal.
    replace (2 * PI * 0 / SpeedProfile.sine_period p) with 0
      by (unfold Rdiv; ring).
    rewrite sin_0. lra.
Qed.

Lemma speed_within_amplitude_witness :
  exists v, SpeedProfile.speed (SpeedProfile.mk 5 2 30) 7 = Ok v /\ 5 - Rabs 2 <= v <= 5 + Rabs 2.
Proof.
  assert (Hp : SpeedProfile.sine_period (SpeedProfile.mk 5 2 30) <> 0)
    by (simpl; lra).
  exact (proj1 (speed_within_amplitude (SpeedProfile.mk 5 2 30) 7 Hp)).
Defined.

(** X2. [height] raises exactly when the time is positive, the ripple
    amplitude is not zero and the ripple period is zero; the exception is
    then [ZeroDivisionError].  A zero period is harmless without ripple and
    at the times [t <= 0]. *)
Theorem height_raises_iff (p : AltitudeProfile.t) (tm : R) (e : exn) :
  height p tm = Raise e <->
  (0 < tm /\ AltitudeProfile.sine_amp p <> 0 /\ AltitudeProfile.sine_period p = 0
   /\ e = ZeroDivisionError).
Proof.
  unfold height. split.
  - destruct (Rle_dec tm 0) as [Ht | Ht]; [discriminate |].
    assert (Hclimb : exists c,
              (if Rlt_dec 0 (climb_rate p)
               then truediv (takeoff_altitude p - takeoff_elevation p) (climb_rate p)
               else Ok 0) = Ok c).
    { destruct (Rlt_dec 0 (climb_rate p)); [| eauto].
      rewrite truediv_ok by lra. eauto. }
    destruct Hclimb as [c ->]. cbn [bind].
    destruct (Req_dec_T (AltitudeProfile.sine_amp p) 0) as [Ha | Ha];
      [discriminate |].
    unfold truediv.
    destruct (Req_dec_T (AltitudeProfile.sine_period p) 0) as [Hp | Hp];
      [| discriminate].
    cbn [bind]. intros H. injection H as <-. repeat split; auto. lra.
  - intros (Ht & Ha & Hp & ->).
    destruct (Rle_dec tm 0) as [Ht' | _]; [lra |].
    assert (Hclimb : exists c,
              (if Rlt_dec 0 (climb_rate p)
               then truediv (takeoff_altitude p - takeoff_elevation p) (climb_rate p)
               else Ok 0) = Ok c).
    { destruct (Rlt_dec 0 (climb_rate p)); [| eauto].
      rewrite truediv_ok by lra. eauto. }
    destruct Hclimb as [c ->]. cbn [bind].
    destruct (Req_dec_T (AltitudeProfile.sine_amp p) 0) as [Ha' | _];
      [contradiction |].
    rewrite Hp, truediv_zero. reflexivity.
Qed.

Lemma height_raises_iff_witness :
  height (AltitudeProfile.mk 0 500 2 10 0) 5 = Raise ZeroDivisionError.
Proof.
  apply (proj2 (height_raises_iff (AltitudeProfile.mk 0 500 2 10 0) 5
                  ZeroDivisionError)).
  simpl. repeat split; lra.
Defined.

Lemma height_in_climb (p : AltitudeProfile.t) (tm : R) :
  AltitudeProfile.sine_amp p = 0 ->
  height p tm
  = Ok (if Rle_dec tm 0 then takeoff_elevation p
        else if Rle_dec tm (climb_time p)
             then takeoff_elevation p + climb_rate p * tm
             else takeoff_altitude p).
Proof.
  intros Ha. destruct (Rle_dec tm 0) as [Ht | Ht].
  - unfold height. destruct (Rle_dec tm 0); [reflexivity | contradiction].
  - apply height_after_takeoff; [assumption | lra].
Qed.

Lemma climb_time_rate (p : AltitudeProfile.t) :
  0 < climb_rate p ->
  climb_rate p * climb_time p = takeoff_altitude p - takeoff_elevation p.
Proof.
  intros Hr. unfold climb_time.
  destruct (Rlt_dec 0 (climb_rate p)); [| contradiction].
  field. lra.
Qed.

(** X3. A climb without ripple (positive climb rate, target not below the
    start) keeps the height between the takeoff elevation and the target at
    every time, and never lets it decrease as time goes on. *)
Theorem height_climbs_to_target (p : AltitudeProfile.t) (t1 t2 : R) :
  AltitudeProfile.sine_amp p = 0 ->
  0 < climb_rate p ->
  takeoff_elevation p <= takeoff_altitude p ->
  t1 <= t2 ->
  exists h1 h2,
    height p t1 = Ok h1 /\ height p t2 = Ok h2 /\
    takeoff_elevation p <= h1 /\ h1 <= h2 /\ h2 <= takeoff_altitude p.
Proof.
  intros Ha Hr Hst Ht.
  pose proof (climb_time_rate p Hr) as Hc.
  rewrite !height_in_climb by assumption.
  eexists _, _. split; [reflexivity |]. split; [reflexivity |].
  destruct (Rle_dec t1 0), (Rle_dec t2 0),
           (Rle_dec t1 (climb_time p)), (Rle_dec t2 (climb_time p));
    repeat split; try lra; nra.
Qed.

Lemma height_climbs_to_target_witness :
  exists h1 h2,
    height climb_500 100 = Ok h1 /\ height climb_500 400 = Ok h2 /\
    0 <= h1 /\ h1 <= h2 /\ h2 <= 500.
Proof.
  apply (height_climbs_to_target climb_500 100 400); simpl; lra.
Defined.

(** X4. A climb without ripple ends exactly on the target: at the climb
    time the linear branch gives the target altitude, so the height has no
    jump there. *)
Theorem height_at_climb_time (p : AltitudeProfile.t) :
  AltitudeProfile.sine_amp p = 0 ->
  0 < climb_rate p ->
  takeoff_elevation p < takeoff_altitude p ->
  height p (climb_time p) = Ok (takeoff_altitude p).
Proof.
  intros Ha Hr Hst.
  pose proof (climb_time_rate p Hr) as Hc.
  assert (Hpos : 0 < climb_time p) by nra.
  rewrite height_after_takeoff by assumption.
  destruct (Rle_dec (climb_time p) (climb_time p)); [f_equal; lra | lra].
Qed.

Lemma height_at_climb_time_witness :
  height climb_500 (climb_time climb_500) = Ok 500.
Proof.
  apply (height_at_climb_time climb_500); simpl; lra.
Defined.

(** X5. There is no gradual descent: without ripple, when the climb rate is
    not positive or the target is not above the takeoff elevation, the
    height is the target at every positive time, however small. *)
Theorem height_jumps_without_climb (p : AltitudeProfile.t) (tm : R) :
  AltitudeProfile.sine_amp p = 0 ->
  climb_rate p <= 0 \/ takeoff_altitude p <= takeoff_elevation p ->
  0 < tm ->
  height p tm = Ok (takeoff_altitude p).
Proof.
  intros Ha Hcase Ht.
  rewrite height_after_takeoff by assumption.
  destruct (Rle_dec tm (climb_time p)) as [Hle | _]; [| reflexivity].
  exfalso. unfold climb_time in Hle.
  destruct (Rlt_dec 0 (climb_rate p)) as [Hr | Hr]; [| lra].
  destruct Hcase as [Hc | Hc]; [lra |].
  assert (Hq : (takeoff_altitude p - takeoff_elevation p) / climb_rate p <= 0).
  { assert (Hm : (takeoff_altitude p - takeoff_elevation p) / climb_rate p
                 * climb_rate p
                 = takeoff_altitude p - takeoff_elevation p) by (field; lra).
    nra. }
  lra.
Qed.

Lemma height_jumps_without_climb_witness :
  height descending_profile (1 / 1000) = Ok 50.
Proof.
  apply (height_jumps_without_climb descending_profile (1 / 1000)).
  - reflexivity.
  - right. simpl. lra.
  - lra.
Defined.

(** X6. With a ripple period that is not zero and at a positive time, the
    height differs from the height of the same profile without ripple by at
    most the ripple amplitude. *)
Theorem height_ripple_within_amplitude (p : AltitudeProfile.t) (tm : R) :
  AltitudeProfile.sine_period p <> 0 ->
  0 < tm ->
  exists h0 h,
    height (without_ripple p) tm = Ok h0 /\
    height p tm = Ok h /\
    Rabs (h - h0) <= Rabs (AltitudeProfile.sine_amp p).
Proof.
  intros Hp Ht.
  rewrite (height_after_takeoff (without_ripple p)) by (reflexivity || assumption).
  assert (Hct : climb_time (without_ripple p) = climb_time p) by reflexivity.
  rewrite Hct. simpl.
  unfold height. destruct (Rle_dec tm 0) as [Ht' | _]; [lra |].
  assert (Hclimb :
    (if Rlt_dec 0 (climb_rate p)
     then truediv (takeoff_altitude p - takeoff_elevation p) (climb_rate p)
     else Ok 0) = Ok (climb_time p)).
  { unfold climb_time. destruct (Rlt_dec 0 (climb_rate p)); [| reflexivity].
    now rewrite truediv_ok by lra. }
  rewrite Hclimb. cbn [bind].
  destruct (Req_dec_T (AltitudeProfile.sine_amp p) 0) as [Ha | Ha].
  - eexists _, _. split; [reflexivity |]. split; [reflexivity |].
    rewrite Ha, Rminus_diag, Rabs_R0. lra.
  - rewrite truediv_ok by assumption. cbn [bind].
    eexists _, _. split; [reflexivity |]. split; [reflexivity |].
    apply Rabs_le.
    pose proof (amp_sin_bound (AltitudeProfile.sine_amp p)
                  (2 * PI * tm / AltitudeProfile.sine_period p)).
    lra.
Qed.

Lemma height_ripple_within_amplitude_witness :
  exists h0 h,
    height (without_ripple (AltitudeProfile.mk 0 500 2 10 60)) 300 = Ok h0 /\
    height (AltitudeProfile.mk 0 500 2 10 60) 300 = Ok h /\
    Rabs (h - h0) <= Rabs 10.
Proof.
  apply (height_ripple_within_amplitude (AltitudeProfile.mk 0 500 2 10 60) 300);
    simpl; lra.
Defined.

Lemma mod360_periodic (x : R) (k : Z) : mod360 (x + 360 * IZR k) = mod360 x.
Proof.
  unfold mod360.
  replace ((x + 360 * IZR k) / 360) with (x / 360 + IZR k) by (field; lra).
  rewrite Zfloor_addz, plus_IZR. ring.
Qed.

Lemma yaw_is_mod360 (g : GimbalProfile.t) (heading tm v : R) :
  GimbalProfile.yaw g heading tm = Ok v -> exists x, v = mod360 x.
Proof.
  unfold GimbalProfile.yaw. intros H.
  destruct (GimbalProfile.yaw_mode g =? "static")%string.
  - rewrite pymod_360 in H. injection H as <-. eauto.
  - destruct (GimbalProfile.yaw_mode g =? "oscillating")%string.
    + bind_inv H. rewrite pymod_360 in H. injection H as <-. eauto.
    + destruct (GimbalProfile.yaw_mode g =? "rotating")%string;
        rewrite pymod_360 in H; injection H as <-; eauto.
Qed.

(** X7. Whatever the mode, a yaw that is returned is a remainder modulo
    360 and lies between 0 and 360.  (Over the reals it stays below 360;
    the upper end is allowed for, since a float remainder can round up to
    it.) *)
Theorem yaw_in_range (g : GimbalProfile.t) (heading tm v : R) :
  GimbalProfile.yaw g heading tm = Ok v -> 0 <= v <= 360.
Proof.
  intros H. apply yaw_is_mod360 in H as [x ->].
  pose proof (mod360_range x). lra.
Qed.

Lemma yaw_in_range_witness :
  0 <= mod360 (725 + 1 * 10) <= 360.
Proof.
  apply (yaw_in_range
           (GimbalProfile.mk "rotating" 0 90 60 1 "static" (-30) (-30) 60 60 5 40)
           725 10).
  unfold GimbalProfile.yaw. simpl. apply pymod_360.
Defined.

(** X8. The yaw depends on the heading only modulo 360: adding whole turns
    to the heading changes neither the value nor the outcome, in any mode. *)
Theorem yaw_heading_periodic (g : GimbalProfile.t) (heading tm : R) (k : Z) :
  GimbalProfile.yaw g (heading + 360 * IZR k) tm = GimbalProfile.yaw g heading tm.
Proof.
  unfold GimbalProfile.yaw.
  assert (Hshift : forall d,
            pymod (heading + 360 * IZR k + d) 360 = pymod (heading + d) 360).
  { intros d. rewrite !pymod_360.
    replace (heading + 360 * IZR k + d) with (heading + d + 360 * IZR k) by ring.
    now rewrite mod360_periodic. }
  destruct (GimbalProfile.yaw_mode g =? "static")%string; [apply Hshift |].
  destruct (GimbalProfile.yaw_mode g =? "oscillating")%string.
  - destruct (truediv (2 * PI * tm) (GimbalProfile.yaw_period g)); [| reflexivity].
    cbn [bind]. apply Hshift.
  - destruct (GimbalProfile.yaw_mode g =? "rotating")%string; [apply Hshift |].
    rewrite !pymod_360. now rewrite mod360_periodic.
Qed.

Lemma yaw_heading_periodic_witness :
  GimbalProfile.yaw GimbalProfile.default (90 + 360 * IZR 2) 3
  = GimbalProfile.yaw GimbalProfile.default 90 3.
Proof.
  exact (yaw_heading_periodic GimbalProfile.default 90 3 2).
Defined.

Lemma Rabs_half (a : R) : Rabs (a / 2) = Rabs a / 2.
Proof.
  unfold Rabs. destruct (Rcase_abs (a / 2)), (Rcase_abs a); lra.
Qed.

(** X9. An oscillating pitch with a period that is not zero swings around
    [pitch_mid] by at most half of [pitch_amp], which is a peak-to-peak
    amplitude; the static pitch plays no part in it. *)
Theorem pitch_within_amplitude (g : GimbalProfile.t) (tm : R) :
  GimbalProfile.pitch_mode g = "oscillating"%string ->
  GimbalProfile.pitch_period g <> 0 ->
  exists v, GimbalProfile.pitch g tm = Ok v /\
    Rabs (v - GimbalProfile.pitch_mid g) <= Rabs (GimbalProfile.pitch_amp g) / 2.
Proof.
  intros Hm Hp. unfold GimbalProfile.pitch. rewrite Hm. simpl.
  rewrite truediv_ok by assumption. cbn [bind].
  eexists. split; [reflexivity |].
  rewrite <- Rabs_half. apply Rabs_le.
  pose proof (amp_sin_bound (GimbalProfile.pitch_amp g / 2)
                (2 * PI * tm / GimbalProfile.pitch_period g)).
  lra.
Qed.

Lemma pitch_within_amplitude_witness :
  exists v,
    GimbalProfile.pitch
      (GimbalProfile.mk "static" 0 90 60 1 "oscillating" 0 (-30) 60 60 5 40) 12
    = Ok v /\
    Rabs (v - (-30)) <= Rabs 60 / 2.
Proof.
  apply (pitch_within_amplitude
           (GimbalProfile.mk "static" 0 90 60 1 "oscillating" 0 (-30) 60 60 5 40) 12).
  - reflexivity.
  - simpl. lra.
Defined.

(** X10. With a period that is not zero the roll never raises, stays within
    the roll amplitude and is zero at time 0. *)
Theorem roll_within_amplitude (g : GimbalProfile.t) (tm : R) :
  GimbalProfile.roll_period g <> 0 ->
  (exists v, GimbalProfile.roll g tm = Ok v /\
     Rabs v <= Rabs (GimbalProfile.roll_amp g)) /\
  GimbalProfile.roll g 0 = Ok 0.
Proof.
  intros Hp. unfold GimbalProfile.roll. rewrite !truediv_ok by assumption.
  cbn [bind]. split.
  - eexists. split; [reflexivity |]. apply Rabs_le.
    pose proof (amp_sin_bound (GimbalProfile.roll_amp g)
                  (2 * PI * tm / GimbalProfile.roll_period g)).
    lra.
  - f_equal. replace (2 * PI * 0 / GimbalProfile.roll_period g) with 0
      by (unfold Rdiv; ring).
    rewrite sin_0. ring.
Qed.

Lemma roll_within_amplitude_witness :
  exists v, GimbalProfile.roll GimbalProfile.default 13 = Ok v /\ Rabs v <= Rabs 5.
Proof.
  assert (Hp : GimbalProfile.roll_period GimbalProfile.default <> 0)
    by (simpl; lra).
  exact (proj1 (roll_within_amplitude GimbalProfile.default 13 Hp)).
Defined.

(** X11. An oscillating zoom with a period that is not zero and
    [min_value <= max_value] stays between the two, whatever they are; the
    static value plays no part in it. *)
Theorem zoom_between_min_and_max (z : ZoomProfile.t) (tm : R) :
  mode z = "oscillating"%string ->
  period z <> 0 ->
  min_value z <= max_value z ->
  exists v, zoom_factor z tm = Ok v /\ min_value z <= v <= max_value z.
Proof.
  intros Hm Hp Hle. unfold zoom_factor. rewrite Hm. simpl.
  rewrite truediv_ok by assumption. cbn [bind].
  eexists. split; [reflexivity |].
  pose proof (SIN_bound (2 * PI * tm / period z)) as [Hlo Hhi].
  split; nra.
Qed.

Lemma zoom_between_min_and_max_witness :
  exists v,
    zoom_factor (ZoomProfile.mk "oscillating" 9 2 8 45) 100 = Ok v /\ 2 <= v <= 8.
Proof.
  apply (zoom_between_min_and_max (ZoomProfile.mk "oscillating" 9 2 8 45) 100).
  - reflexivity.
  - simpl. lra.
  - simpl. lra.
Defined.

(* ------------------------------------------------------------------ *)
(** * Further properties of the offset and the path generators *)

Lemma meters_to_latlon_offset_inv (d_m angle_deg lat_c dlat dlon : R) :
  meters_to_latlon_offset d_m angle_deg lat_c = Ok (dlat, dlon) ->
  cos (math_radians lat_c) <> 0 /\
  dlat = d_m * cos (math_radians angle_deg) / 111320 /\
  dlon = d_m * sin (math_radians angle_deg) / (111320 * cos (math_radians lat_c)).
Proof.
  unfold meters_to_latlon_offset, M_PER_DEG_LAT. intros H.
  bind_inv H. apply truediv_inv in Ha as [_ ->].
  bind_inv H. apply truediv_inv in Ha as [Hc ->].
  injection H as <- <-. repeat split.
  intros Hz. apply Hc. rewrite Hz. ring.
Qed.

Lemma offset_length_eq (d a c : R) :
  c <> 0 ->
  (d * cos a / 111320 * 111320) * (d * cos a / 111320 * 111320)
  + (d * sin a / (111320 * c) * (111320 * c))
    * (d * sin a / (111320 * c) * (111320 * c))
  = d * d.
Proof.
  intros Hc.
  replace (d * cos a / 111320 * 111320) with (d * cos a) by (field; lra).
  replace (d * sin a / (111320 * c) * (111320 * c)) with (d * sin a)
    by (field; lra).
  pose proof (sin2_cos2 a) as H. unfold Rsqr in H.
  replace (d * cos a * (d * cos a) + d * sin a * (d * sin a))
    with (d * d * (sin a * sin a + cos a * cos a)) by ring.
  rewrite H. ring.
Qed.

(** X12. Away from the poles the offset has the length asked for: scaled
    back to metres (111320 per degree of latitude, and that times the cosine
    of the reference latitude per degree of longitude), its two components
    have the squares summing to the square of the distance. *)
Theorem offset_has_requested_length (d_m angle_deg lat_c : R) :
  cos (math_radians lat_c) <> 0 ->
  exists dlat dlon,
    meters_to_latlon_offset d_m angle_deg lat_c = Ok (dlat, dlon) /\
    (dlat * 111320) * (dlat * 111320)
    + (dlon * (111320 * cos (math_radians lat_c)))
      * (dlon * (111320 * cos (math_radians lat_c)))
    = d_m * d_m.
Proof.
  intros Hc. rewrite meters_to_latlon_offset_ok by assumption.
  eexists _, _. split; [reflexivity |]. now apply offset_length_eq.
Qed.

Lemma offset_has_requested_length_witness :
  exists dlat dlon,
    meters_to_latlon_offset 60 35 0 = Ok (dlat, dlon) /\
    (dlat * 111320) * (dlat * 111320)
    + (dlon * (111320 * cos (math_radians 0)))
      * (dlon * (111320 * cos (math_radians 0)))
    = 60 * 60.
Proof.
  exact (offset_has_requested_length 60 35 0 cos_radians_0).
Defined.

(** X13. The bearing 0 is due north: away from the poles the offset at
    bearing 0 changes the latitude by [d / 111320] degrees and leaves the
    longitude alone. *)
Theorem offset_due_north (d_m lat_c : R) :
  cos (math_radians lat_c) <> 0 ->
  meters_to_latlon_offset d_m 0 lat_c = Ok (d_m / 111320, 0).
Proof.
  intros Hc. rewrite meters_to_latlon_offset_ok by assumption.
  unfold math_radians at 1 2. rewrite Rmult_0_l, cos_0, sin_0.
  do 2 f_equal.
  - field.
  - unfold Rdiv. ring.
Qed.

Lemma offset_due_north_witness :
  meters_to_latlon_offset 100 0 0 = Ok (100 / 111320, 0).
Proof.
  exact (offset_due_north 100 0 cos_radians_0).
Defined.

Lemma for_each_Forall {A B : Type} (body : A -> result B) (P : B -> Prop)
    (xs : list A) (ys : list B) :
  for_each body xs = Ok ys ->
  (forall x y, In x xs -> body x = Ok y -> P y) ->
  Forall P ys.
Proof.
  revert ys. induction xs as [| x rest IH]; intros ys H Hb; simpl in H.
  - injection H as <-. constructor.
  - bind_inv H. bind_inv H. injection H as <-. constructor.
    + apply (Hb x); [now left | assumption].
    + apply IH; [assumption |]. intros x' y Hin. apply Hb. now right.
Qed.

(** X14. Every waypoint of a circle that is returned lies on the circle:
    its offset from the centre, scaled back to metres, has the length
    [radius_m]; and its heading lies between 0 and 360. *)
Theorem circle_waypoints_on_circle (cfg : FlightConfig.t) (pts : list Waypoint) :
  gen_circle cfg = Ok pts ->
  Forall (fun wp : Waypoint =>
            let '(lat, lon, heading) := wp in
            let north := (lat - center_lat cfg) * 111320 in
            let east := (lon - center_lon cfg)
                        * (111320 * cos (math_radians (center_lat cfg))) in
            north * north + east * east = radius_m cfg * radius_m cfg /\
            0 <= heading <= 360)
         pts.
Proof.
  intros H. unfold gen_circle in H.
  apply (for_each_Forall _ _ _ _ H). clear H. intros i wp _ Hwp.
  bind_inv Hwp. bind_inv Hwp. destruct a0 as [dlat dlon].
  apply meters_to_latlon_offset_inv in Ha0 as (Hc & -> & ->).
  bind_inv Hwp. rewrite pymod_360 in Ha0. injection Ha0 as <-.
  injection Hwp as <-.
  split; [| match goal with |- 0 <= mod360 ?x <= 360 =>
              pose proof (mod360_range x); lra end].
  match goal with
  | |- ?n * ?n + ?e * ?e = _ =>
      replace n with (radius_m cfg * cos (math_radians (a * 360)) / 111320 * 111320)
        by ring;
      replace e with (radius_m cfg * sin (math_radians (a * 360))
                      / (111320 * cos (math_radians (center_lat cfg)))
                      * (111320 * cos (math_radians (center_lat cfg))))
        by ring
  end.
  now apply offset_length_eq.
Qed.

Lemma circle_waypoints_on_circle_witness :
  exists pts,
    gen_circle (sample_config "circle" 360 1 90) = Ok pts /\
    Forall (fun wp : Waypoint =>
              let '(lat, lon, heading) := wp in
              let north := (lat - 0) * 111320 in
              let east := (lon - - (12276394 / 100000))
                          * (111320 * cos (math_radians 0)) in
              north * north + east * east = 60 * 60 /\
              0 <= heading <= 360)
           pts.
Proof.
  destruct (gen_circle_total (sample_config "circle" 360 1 90) cos_radians_0)
    as [pts Hpts].
  exists pts. split; [exact Hpts |].
  exact (circle_waypoints_on_circle (sample_config "circle" 360 1 90) pts Hpts).
Defined.

Lemma last_item_In {A : Type} (xs : list A) (x : A) :
  last_item xs = Ok x -> In x xs.
Proof.
  unfold last_item. destruct (rev xs) as [| y ys] eqn:Hrev; [discriminate |].
  intros H. injection H as <-. apply in_rev. rewrite Hrev. now left.
Qed.

(** The padding only repeats a waypoint that is already there. *)
Lemma pad_tail_Forall (P : Waypoint -> Prop) (total : Z) (out pts : list Waypoint) :
  pad_tail total out = Ok pts -> Forall P out -> Forall P pts.
Proof.
  intros H Hout.
  destruct (Z_lt_dec (Z.of_nat (List.length out)) total) as [Hlt | Hge].
  - destruct (last_item out) as [w | e] eqn:Hw.
    + rewrite (pad_tail_spec total _ out w Hw eq_refl) in H. injection H as <-.
      apply Forall_app. split; [assumption |].
      apply Forall_forall. intros x Hx. apply repeat_spec in Hx as ->.
      apply last_item_In in Hw. rewrite Forall_forall in Hout. now apply Hout.
    + rewrite pad_tail_step in H.
      destruct (Z_lt_dec (Z.of_nat (List.length out)) total); [| contradiction].
      rewrite Hw in H. discriminate.
  - rewrite pad_tail_full in H by lia. now injection H as <-.
Qed.

Ltac pymod_value :=
  match goal with
  | H : pymod _ 360 = Ok _ |- _ => rewrite pymod_360 in H; injection H as <-
  end.

Lemma gen_triangle_headings (cfg : FlightConfig.t) (pts : list Waypoint) :
  gen_triangle cfg = Ok pts ->
  Forall (fun wp : Waypoint => 0 <= snd wp < 360) pts.
Proof.
  unfold gen_triangle. intros H. bind_inv H. bind_inv H. rename a0 into edges.
  apply (pad_tail_Forall _ _ _ _ H). apply Forall_concat.
  apply (for_each_Forall _ _ _ _ Ha0). intros e ys _ He.
  bind_inv He. destruct a0 as [lat1 lon1].
  bind_inv He. destruct a0 as [lat2 lon2].
  apply (for_each_Forall _ _ _ _ He). intros j wp _ Hwp.
  bind_inv Hwp. bind_inv Hwp. pymod_value.
  injection Hwp as <-. simpl. apply mod360_range.
Qed.

Lemma gen_circle_headings (cfg : FlightConfig.t) (pts : list Waypoint) :
  gen_circle cfg = Ok pts ->
  Forall (fun wp : Waypoint => 0 <= snd wp < 360) pts.
Proof.
  unfold gen_circle. intros Hgen.
  apply (for_each_Forall _ _ _ _ Hgen). intros i wp _ Hwp.
  bind_inv Hwp. bind_inv Hwp. destruct a0 as [dlat dlon].
  bind_inv Hwp. pymod_value.
  injection Hwp as <-. simpl. apply mod360_range.
Qed.

Lemma gen_straight_headings (cfg : FlightConfig.t) (pts : list Waypoint) :
  gen_straight cfg = Ok pts ->
  Forall (fun wp : Waypoint => 0 <= snd wp < 360) pts.
Proof.
  unfold gen_straight. intros Hgen. bind_inv Hgen.
  apply (for_each_Forall _ _ _ _ Hgen). intros i wp _ Hwp.
  bind_inv Hwp. destruct a0 as [dlat dlon].
  bind_inv Hwp. pymod_value.
  injection Hwp as <-. simpl. apply mod360_range.
Qed.

Lemma gen_hover_headings (cfg : FlightConfig.t) (pts : list Waypoint) :
  gen_hover cfg = Ok pts ->
  Forall (fun wp : Waypoint => 0 <= snd wp < 360) pts.
Proof.
  unfold gen_hover. intros Hgen. bind_inv Hgen.
  pymod_value. injection Hgen as <-.
  apply Forall_forall. intros wp Hwp. apply repeat_spec in Hwp as ->.
  simpl. apply mod360_range.
Qed.

(** X15. Whichever generator [PATHS] selects, every waypoint it returns has
    its heading between 0 and 360, whatever the configured bearing.  (Over
    the reals it stays below 360; the upper end is allowed for, since a
    float remainder can round up to it.) *)
Theorem headings_in_range
    (cfg : FlightConfig.t) (gen : PathFunc) (pts : list Waypoint) :
  getitem PATHS (path_type cfg) = Ok gen ->
  gen cfg = Ok pts ->
  Forall (fun wp : Waypoint => 0 <= snd wp <= 360) pts.
Proof.
  intros Hget Hgen.
  apply (Forall_impl (P := fun wp : Waypoint => 0 <= snd wp < 360));
    [intros wp Hwp; lra |].
  apply getitem_PATHS_inv in Hget as [[_ ->] | [[_ ->] | [[_ ->] | [_ ->]]]].
  - now apply (gen_circle_headings cfg).
  - now apply (gen_straight_headings cfg).
  - now apply (gen_triangle_headings cfg).
  - now apply (gen_hover_headings cfg).
Qed.

Lemma headings_in_range_witness :
  exists pts,
    gen_triangle (sample_config "triangle" 10 1 (-725)) = Ok pts /\
    Forall (fun wp : Waypoint => 0 <= snd wp <= 360) pts.
Proof.
  destruct (gen_triangle_total (sample_config "triangle" 10 1 (-725)) cos_radians_0)
    as [pts Hpts].
  exists pts. split; [exact Hpts |].
  exact (headings_in_range (sample_config "triangle" 10 1 (-725)) gen_triangle pts
           eq_refl Hpts).
Defined.

(** X16. A triangle that is returned has [max(total_pts, 3)] waypoints when
    [total_pts] is not negative, so three of them even for zero, one or two
    samples; it has none when [total_pts] is negative. *)
Theorem triangle_has_at_least_three (cfg : FlightConfig.t) (pts : list Waypoint) :
  gen_triangle cfg = Ok pts ->
  ((0 <= total_pts cfg)%Z ->
   Z.of_nat (List.length pts) = Z.max (total_pts cfg) 3) /\
  ((total_pts cfg < 0)%Z -> pts = []).
Proof.
  intros H. split.
  - intros Htot. rewrite (gen_triangle_length cfg pts H Htot).
    unfold pts_per_edge, or_else.
    destruct (Z.eqb_spec (total_pts cfg / 3) 0) as [Hq | Hq].
    + assert (total_pts cfg < 3)%Z by (apply Z.div_small_iff in Hq; lia). lia.
    + assert (Hq0 : (0 <= total_pts cfg / 3)%Z) by (apply Z.div_pos; lia).
      pose proof (Z.mul_div_le (total_pts cfg) 3 ltac:(lia)). lia.
  - intros Htot. apply gen_triangle_inv in H as (computed & Hlen & Hpad).
    assert (Hppe : (pts_per_edge cfg < 0)%Z).
    { unfold pts_per_edge, or_else.
      assert (total_pts cfg / 3 < 0)%Z by (apply Z.div_lt_upper_bound; lia).
      destruct (Z.eqb_spec (total_pts cfg / 3) 0); lia. }
    assert (Hnil : computed = []).
    { destruct computed; [reflexivity | simpl in Hlen; lia]. }
    subst computed. rewrite pad_tail_full in Hpad by (simpl; lia).
    now injection Hpad as <-.
Qed.

Lemma triangle_has_at_least_three_witness :
  exists pts,
    gen_triangle (sample_config "triangle" 2 1 90) = Ok pts /\
    Z.of_nat (List.length pts) = 3%Z.
Proof.
  destruct (gen_triangle_total (sample_config "triangle" 2 1 90) cos_radians_0)
    as [pts Hpts].
  exists pts. split; [exact Hpts |].
  exact (proj1 (triangle_has_at_least_three _ pts Hpts) ltac:(discriminate)).
Defined.

(** X17. With [total_pts = 0] the generators part ways: the circle and the
    hover return the empty list, the straight path raises
    [ZeroDivisionError] on its step size. *)
Theorem zero_samples (cfg : FlightConfig.t) :
  total_pts cfg = 0%Z ->
  gen_circle cfg = Ok [] /\
  gen_hover cfg = Ok [] /\
  gen_straight cfg = Raise ZeroDivisionError.
Proof.
  intros H. unfold gen_circle, gen_hover, gen_straight. rewrite H.
  split; [reflexivity |]. split.
  - rewrite pymod_360. reflexivity.
  - now rewrite truediv_zero.
Qed.

Lemma zero_samples_witness :
  gen_circle (sample_config "straight" 0 5 90) = Ok [] /\
  gen_hover (sample_config "straight" 0 5 90) = Ok [] /\
  gen_straight (sample_config "straight" 0 5 90) = Raise ZeroDivisionError.
Proof.
  exact (zero_samples (sample_config "straight" 0 5 90) eq_refl).
Defined.

Ltac bind_named H x Hx :=
  apply bind_ok in H; destruct H as (x & Hx & H).

(** X18. A circle of at least one sample starts due north of the centre,
    [radius_m / 111320] degrees of latitude above it on the centre's
    meridian, heading east (90). *)
Theorem circle_starts_north (cfg : FlightConfig.t) (pts : list Waypoint) :
  gen_circle cfg = Ok pts ->
  (0 < total_pts cfg)%Z ->
  exists rest,
    pts = (center_lat cfg + radius_m cfg / 111320, center_lon cfg, 90) :: rest.
Proof.
  unfold gen_circle, range. intros H Htot.
  destruct (Z.to_nat (total_pts cfg)) as [| n] eqn:Hn; [lia |].
  simpl in H. bind_named H wp Hwp. bind_named H rest Hrest. injection H as <-.
  exists rest. f_equal.
  bind_named Hwp frac Hfrac. apply truediv_inv in Hfrac as [Hnz ->].
  bind_named Hwp off Hoff. destruct off as [dlat dlon].
  apply meters_to_latlon_offset_inv in Hoff as (Hc & -> & ->).
  bind_named Hwp heading Hheading. pymod_value. injection Hwp as <-.
  replace (0 / IZR (total_pts cfg) * 360) with 0 by (unfold Rdiv; ring).
  unfold math_radians at 1 2. rewrite Rmult_0_l, cos_0, sin_0.
  rewrite mod360_small by lra.
  f_equal; [f_equal |]; [field | unfold Rdiv; ring | lra].
Qed.

Lemma circle_starts_north_witness :
  exists pts rest,
    gen_circle (sample_config "circle" 120 1 90) = Ok pts /\
    pts = (0 + 60 / 111320, - (12276394 / 100000), 90) :: rest.
Proof.
  destruct (gen_circle_total (sample_config "circle" 120 1 90) cos_radians_0)
    as [pts Hpts].
  destruct (circle_starts_north (sample_config "circle" 120 1 90) pts Hpts eq_refl)
    as [rest Hrest].
  exists pts, rest. split; [exact Hpts | exact Hrest].
Defined.

(** X19. A straight path that is returned starts on the configured start
    point: its first waypoint has the start latitude and longitude
    unchanged, and the bearing reduced modulo 360 as its heading. *)
Theorem straight_starts_at_start (cfg : FlightConfig.t) (pts : list Waypoint) :
  gen_straight cfg = Ok pts ->
  (0 < total_pts cfg)%Z ->
  exists rest,
    pts = (start_lat cfg, start_lon cfg, mod360 (bearing_deg cfg)) :: rest.
Proof.
  unfold gen_straight, range. intros H Htot.
  bind_named H step Hstep. apply truediv_inv in Hstep as [Hnz ->].
  destruct (Z.to_nat (total_pts cfg)) as [| n] eqn:Hn; [lia |].
  simpl in H. bind_named H wp Hwp. bind_named H rest Hrest. injection H as <-.
  exists rest. f_equal.
  bind_named Hwp off Hoff. destruct off as [dlat dlon].
  apply meters_to_latlon_offset_inv in Hoff as (Hc & -> & ->).
  bind_named Hwp heading Hheading. pymod_value. injection Hwp as <-.
  apply f_equal2; [apply f_equal2 | reflexivity]; unfold Rdiv; ring.
Qed.

Lemma straight_starts_at_start_witness :
  exists pts rest,
    gen_straight (sample_config "straight" 120 1 450) = Ok pts /\
    pts = (0, - (12276394 / 100000), mod360 450) :: rest.
Proof.
  destruct (gen_straight_total (sample_config "straight" 120 1 450))
    as [pts Hpts]; [discriminate | apply cos_radians_0 |].
  destruct (straight_starts_at_start (sample_config "straight" 120 1 450) pts Hpts
              eq_refl) as [rest Hrest].
  exists pts, rest. split; [exact Hpts | exact Hrest].
Defined.

(* ------------------------------------------------------------------ *)
(** * Further properties of [generate_entries] *)

Lemma entries_loop_sample (cfg : FlightConfig.t) (start_time : datetime)
    (path_pts : list Waypoint) :
  forall (i : Z) (flight_dist : R) (es : list Entry.t),
    entries_loop cfg start_time i flight_dist path_pts = Ok es ->
    forall (k : nat) (e : Entry.t), nth_error es k = Some e ->
      exists wp, nth_error path_pts k = Some wp /\
                 sample_entry cfg start_time (i + Z.of_nat k) wp e.
Proof.
  induction path_pts as [| [[lat lon] heading] rest IH]; intros i fd es H k e Hk.
  - simpl in H. injection H as <-. destruct k; discriminate.
  - simpl in H.
    bind_named H tq Htq. apply truediv_inv in Htq as [Hhz ->].
    bind_named H s Hs. bind_named H step Hstep.
    bind_named H h Hh. bind_named H r1 Hr1. bind_named H p Hp.
    bind_named H r2 Hr2. bind_named H y Hy. bind_named H z Hz.
    bind_named H es' Hes'. injection H as <-.
    destruct k as [| k]; simpl in Hk.
    + injection Hk as <-. exists (lat, lon, heading). split; [reflexivity |].
      rewrite Z.add_0_r. unfold sample_entry.
      assert (Hr : r2 = r1) by congruence. subst r2.
      exists h, r1, p, y, z. repeat split; assumption.
    + destruct (IH _ _ _ Hes' k e Hk) as (wp & Hwp & Hsample).
      exists wp. split; [exact Hwp |].
      replace (i + Z.of_nat (S k))%Z with (i + 1 + Z.of_nat k)%Z by lia.
      exact Hsample.
Qed.

(** The entries of a call that returned, read against the waypoints. *)
Lemma generate_entries_sample (cfg : FlightConfig.t) (w w' : World)
    (es : list Entry.t) :
  generate_entries cfg w = (Ok es, w') ->
  exists gen pts,
    getitem PATHS (path_type cfg) = Ok gen /\
    gen cfg = Ok pts /\
    List.length es = List.length pts /\
    forall (k : nat) (e : Entry.t), nth_error es k = Some e ->
      exists wp, nth_error pts k = Some wp /\
                 sample_entry cfg (current_time w) (Z.of_nat k) wp e.
Proof.
  intros H. apply generate_entries_inv in H as (gen & pts & Hget & Hgen & Hloop & _).
  exists gen, pts. split; [exact Hget |]. split; [exact Hgen |].
  split; [now apply entries_loop_length in Hloop |].
  intros k e Hk.
  destruct (entries_loop_sample _ _ _ _ _ _ Hloop k e Hk) as (wp & Hwp & Hs).
  exists wp. now rewrite Z.add_0_l in Hs.
Qed.

(** X20. In every entry of a returned sequence the elevation and the
    attitude pitch are 0 and the attitude roll repeats the gimbal roll. *)
Theorem entry_fixed_fields (cfg : FlightConfig.t) (w w' : World)
    (es : list Entry.t) (e : Entry.t) :
  generate_entries cfg w = (Ok es, w') ->
  In e es ->
  Entry.elevation e = 0%Z /\
  Entry.attitude_pitch e = 0 /\
  Entry.attitude_roll e = Entry.gimbal_roll e.
Proof.
  intros H Hin. apply In_nth_error in Hin as [k Hk].
  apply generate_entries_sample in H as (gen & pts & _ & _ & _ & Hs).
  destruct (Hs k e Hk) as ([[lat lon] heading] & _ & Hsample).
  destruct Hsample as (h & r & p & y & z & Hfields).
  decompose [and] Hfields. repeat split; congruence.
Qed.

(** X21. A returned sequence follows the waypoints of the selected
    generator one for one and in order: it has as many entries, and entry
    [k] carries waypoint [k], latitude and longitude rounded to 6 decimals
    and heading rounded to 1. *)
Theorem entries_follow_waypoints (cfg : FlightConfig.t) (w w' : World)
    (es : list Entry.t) :
  generate_entries cfg w = (Ok es, w') ->
  exists gen pts,
    getitem PATHS (path_type cfg) = Ok gen /\
    gen cfg = Ok pts /\
    List.length es = List.length pts /\
    forall (k : nat) (e : Entry.t), nth_error es k = Some e ->
      exists lat lon heading,
        nth_error pts k = Some (lat, lon, heading) /\
        Entry.latitude e = round lat 6 /\
        Entry.longitude e = round lon 6 /\
        Entry.attitude_head e = round heading 1.
Proof.
  intros H.
  apply generate_entries_sample in H as (gen & pts & Hget & Hgen & Hlen & Hs).
  exists gen, pts. repeat split; try assumption.
  intros k e Hk. destruct (Hs k e Hk) as ([[lat lon] heading] & Hwp & Hsample).
  destruct Hsample as (h & r & p & y & z & Hfields).
  decompose [and] Hfields. exists lat, lon, heading. auto.
Qed.

Lemma sample_run :
  exists es,
    generate_entries (sample_config "hover" 3 2 90) (frozen_world 0%Z)
    = (Ok es, mkWorld (clock (frozen_world 0%Z)) (S (reads (frozen_world 0%Z)))).
Proof.
  apply generate_entries_total.
  - reflexivity.
  - reflexivity.
  - simpl. tauto.
  - unfold profiles_ok. simpl. repeat split; (lra || discriminate).
  - now left.
Defined.

Lemma entry_fixed_fields_witness :
  exists es,
    fst (generate_entries (sample_config "hover" 3 2 90) (frozen_world 0%Z)) = Ok es /\
    forall e, In e es ->
      Entry.elevation e = 0%Z /\ Entry.attitude_pitch e = 0 /\
      Entry.attitude_roll e = Entry.gimbal_roll e.
Proof.
  destruct sample_run as [es Hes]. exists es. split; [now rewrite Hes |].
  intros e. exact (entry_fixed_fields _ _ _ es e Hes).
Defined.

Lemma entries_follow_waypoints_witness :
  exists es pts,
    fst (generate_entries (sample_config "hover" 3 2 90) (frozen_world 0%Z)) = Ok es /\
    gen_hover (sample_config "hover" 3 2 90) = Ok pts /\
    List.length es = List.length pts.
Proof.
  destruct sample_run as [es Hes].
  destruct (entries_follow_waypoints _ _ _ es Hes) as (gen & pts & Hget & Hgen & Hlen & _).
  injection Hget as <-.
  exists es, pts. split; [now rewrite Hes |]. split; [exact Hgen | exact Hlen].
Defined.

Lemma Zfloor_div (a b : Z) : (0 < b)%Z -> Zfloor (IZR a / IZR b) = (a / b)%Z.
Proof.
  intros Hb. apply Zfloor_eq.
  pose proof (Z.div_mod a b ltac:(lia)) as Hdm.
  pose proof (Z.mod_pos_bound a b Hb) as [Hr0 Hr1].
  assert (HbR : 0 < IZR b) by now apply IZR_lt.
  assert (Ha : IZR a = IZR b * IZR (a / b) + IZR (a mod b)).
  { rewrite <- mult_IZR, <- plus_IZR. now f_equal. }
  assert (Hq : IZR a / IZR b = IZR (a / b) + IZR (a mod b) / IZR b).
  { rewrite Ha. field. lra. }
  apply IZR_le in Hr0. apply IZR_lt in Hr1.
  assert (Hfrac : 0 <= IZR (a mod b) / IZR b < 1).
  { split.
    - apply Rmult_le_pos; [exact Hr0 | left; now apply Rinv_0_lt_compat].
    - apply (Rmult_lt_reg_r (IZR b)); [exact HbR |].
      unfold Rdiv. rewrite Rmult_assoc, Rinv_l by lra. lra. }
  rewrite Hq. lra.
Qed.

(** X22. With a positive sample rate, the [seconds_elapsed] of entry [k] is
    the whole number of seconds [k // hz]. *)
Theorem seconds_elapsed_is_floor_division (cfg : FlightConfig.t) (w w' : World)
    (es : list Entry.t) (k : nat) (e : Entry.t) :
  (0 < hz cfg)%Z ->
  generate_entries cfg w = (Ok es, w') ->
  nth_error es k = Some e ->
  Entry.seconds_elapsed e = (Z.of_nat k / hz cfg)%Z.
Proof.
  intros Hhz H Hk.
  apply generate_entries_sample in H as (gen & pts & _ & _ & _ & Hs).
  destruct (Hs k e Hk) as ([[lat lon] heading] & _ & Hsample).
  destruct Hsample as (h & r & p & y & z & Hfields).
  decompose [and] Hfields.
  match goal with Hsec : Entry.seconds_elapsed e = _ |- _ => rewrite Hsec end.
  unfold int.
  destruct (Rle_dec 0 (IZR (Z.of_nat k) / IZR (hz cfg))) as [_ | Hneg].
  - now apply Zfloor_div.
  - exfalso. apply Hneg. apply Rmult_le_pos.
    + apply IZR_le. lia.
    + left. apply Rinv_0_lt_compat. now apply IZR_lt.
Qed.

Lemma seconds_elapsed_is_floor_division_witness :
  exists es,
    fst (generate_entries (sample_config "hover" 3 2 90) (frozen_world 0%Z)) = Ok es /\
    forall e, nth_error es 5 = Some e -> Entry.seconds_elapsed e = 2%Z.
Proof.
  destruct sample_run as [es Hes]. exists es. split; [now rewrite Hes |].
  intros e He.
  exact (seconds_elapsed_is_floor_division (sample_config "hover" 3 2 90) _ _
           es 5 e eq_refl Hes He).
Defined.

Lemma round_half_even_IZR (n : Z) : round_half_even (IZR n) = n.
Proof.
  unfold round_half_even. rewrite ZfloorZ.
  destruct (Rlt_dec (IZR n - IZR n) (1 / 2)); [reflexivity | lra].
Qed.

Lemma timedelta_mono (s1 s2 : R) : s1 <= s2 -> (timedelta s1 <= timedelta s2)%Z.
Proof.
  intros H. unfold timedelta. apply round_half_even_mono. lra.
Qed.

(** X23. With a positive sample rate the timestamps of a returned sequence
    start at the one clock reading, never go back, and do not drift: the
    stamp of entry [k] is less than a microsecond away from the clock
    reading plus [k / hz] seconds. *)
Theorem timestamps_advance (cfg : FlightConfig.t) (w w' : World)
    (es : list Entry.t) :
  (0 < hz cfg)%Z ->
  generate_entries cfg w = (Ok es, w') ->
  (forall e, nth_error es 0 = Some e -> Entry.current_datetime e = current_time w) /\
  (forall (j k : nat) (ej ek : Entry.t), (j <= k)%nat ->
     nth_error es j = Some ej -> nth_error es k = Some ek ->
     (Entry.current_datetime ej <= Entry.current_datetime ek)%Z) /\
  (forall (k : nat) (e : Entry.t), nth_error es k = Some e ->
     Rabs (IZR (Entry.current_datetime e - current_time w)
           - IZR (Z.of_nat k) / IZR (hz cfg) * 1000000) < 1).
Proof.
  intros Hhz H.
  apply generate_entries_sample in H as (gen & pts & _ & _ & _ & Hs).
  assert (HhzR : 0 < IZR (hz cfg)) by now apply IZR_lt.
  assert (Hstamp : forall k e, nth_error es k = Some e ->
            Entry.current_datetime e
            = (current_time w + timedelta (IZR (Z.of_nat k) / IZR (hz cfg)))%Z).
  { intros k e Hk. destruct (Hs k e Hk) as ([[lat lon] heading] & _ & Hsample).
    destruct Hsample as (h & r & p & y & z & Hfields).
    decompose [and] Hfields. assumption. }
  split; [| split].
  - intros e He. rewrite (Hstamp 0%nat e He). unfold timedelta.
    replace (IZR (Z.of_nat 0) / IZR (hz cfg) * 1000000) with (IZR 0)
      by (simpl; unfold Rdiv; ring).
    rewrite round_half_even_IZR. lia.
  - intros j k ej ek Hjk Hj Hk. rewrite (Hstamp j ej Hj), (Hstamp k ek Hk).
    apply Zplus_le_compat_l, timedelta_mono.
    apply Rmult_le_compat_r; [left; now apply Rinv_0_lt_compat |].
    apply IZR_le. lia.
  - intros k e Hk. rewrite (Hstamp k e Hk).
    replace (current_time w + timedelta (IZR (Z.of_nat k) / IZR (hz cfg))
             - current_time w)%Z
      with (timedelta (IZR (Z.of_nat k) / IZR (hz cfg))) by lia.
    unfold timedelta.
    pose proof (round_half_even_error (IZR (Z.of_nat k) / IZR (hz cfg) * 1000000)).
    lra.
Qed.

Lemma timestamps_advance_witness :
  exists es,
    fst (generate_entries (sample_config "hover" 3 2 90) (frozen_world 0%Z)) = Ok es /\
    forall e, nth_error es 3 = Some e ->
      Rabs (IZR (Entry.current_datetime e - 0) - IZR 3 / IZR 2 * 1000000) < 1.
Proof.
  destruct sample_run as [es Hes]. exists es. split; [now rewrite Hes |].
  destruct (timestamps_advance (sample_config "hover" 3 2 90) _ _ es eq_refl Hes)
    as (_ & _ & Hnear).
  intros e He. exact (Hnear 3%nat e He).
Defined.

Lemma round_IZR (n : Z) (ndigits : nat) : round (IZR n) ndigits = IZR n.
Proof.
  unfold round.
  replace (IZR n * 10 ^ ndigits) with (IZR (n * 10 ^ Z.of_nat ndigits)).
  - rewrite round_half_even_IZR, mult_IZR, <- pow_IZR. field.
    apply pow_nonzero. lra.
  - now rewrite mult_IZR, <- pow_IZR.
Qed.

Lemma round_within_turn (x : R) (ndigits : nat) :
  0 <= x < 360 -> 0 <= round x ndigits <= 360.
Proof.
  intros [H0 H1]. split.
  - rewrite <- (round_IZR 0 ndigits). now apply round_mono.
  - rewrite <- (round_IZR 360 ndigits). apply round_mono. lra.
Qed.

Lemma round_reaches_360 : round (35996 / 100) 1 = 360.
Proof.
  unfold round, round_half_even.
  assert (Hf : Zfloor (35996 / 100 * 10 ^ 1) = 3599%Z)
    by (apply Zfloor_eq; simpl; lra).
  rewrite Hf.
  destruct (Rlt_dec (35996 / 100 * 10 ^ 1 - IZR 3599) (1 / 2)) as [H | _];
    [simpl in H; lra |].
  destruct (Rlt_dec (1 / 2) (35996 / 100 * 10 ^ 1 - IZR 3599)) as [_ | H];
    [| simpl in H; lra].
  simpl. lra.
Qed.

(** X24. In a returned entry the heading and the gimbal yaw lie in
    [0, 360], the upper end included: the values are reduced modulo 360
    before they are rounded, and rounding to one decimal can bring a value
    just below 360, such as 359.96, up to 360. *)
Theorem entry_angles_within_turn (cfg : FlightConfig.t) (w w' : World)
    (es : list Entry.t) (e : Entry.t) :
  generate_entries cfg w = (Ok es, w') ->
  In e es ->
  0 <= Entry.attitude_head e <= 360 /\
  0 <= Entry.gimbal_yaw e <= 360 /\
  round (35996 / 100) 1 = 360.
Proof.
  intros H Hin. apply In_nth_error in Hin as [k Hk].
  apply generate_entries_sample in H as (gen & pts & Hget & Hgen & _ & Hs).
  destruct (Hs k e Hk) as ([[lat lon] heading] & Hwp & Hsample).
  destruct Hsample as (h & r & p & y & z & Hfields).
  decompose [and] Hfields.
  assert (Hheading : 0 <= heading < 360).
  { assert (Hall : Forall (fun wp : Waypoint => 0 <= snd wp < 360) pts).
    { apply getitem_PATHS_inv in Hget as [[_ ->] | [[_ ->] | [[_ ->] | [_ ->]]]].
      - now apply (gen_circle_headings cfg).
      - now apply (gen_straight_headings cfg).
      - now apply (gen_triangle_headings cfg).
      - now apply (gen_hover_headings cfg). }
    rewrite Forall_forall in Hall.
    apply (Hall (lat, lon, heading)). now apply nth_error_In in Hwp. }
  assert (Hyaw : 0 <= y < 360).
  { match goal with
    | Hy : GimbalProfile.yaw _ _ _ = Ok y |- _ =>
        apply yaw_is_mod360 in Hy as [x ->]
    end. apply mod360_range. }
  repeat match goal with
  | Hf : Entry.attitude_head e = _ |- _ => rewrite Hf; clear Hf
  | Hf : Entry.gimbal_yaw e = _ |- _ => rewrite Hf; clear Hf
  end.
  split; [now apply round_within_turn |].
  split; [now apply round_within_turn | apply round_reaches_360].
Qed.

Lemma entry_angles_within_turn_witness :
  exists es,
    fst (generate_entries (sample_config "hover" 3 2 90) (frozen_world 0%Z)) = Ok es /\
    forall e, In e es ->
      0 <= Entry.attitude_head e <= 360 /\ 0 <= Entry.gimbal_yaw e <= 360.
Proof.
  destruct sample_run as [es Hes]. exists es. split; [now rewrite Hes |].
  intros e He.
  destruct (entry_angles_within_turn _ _ _ es e Hes He) as (Hh & Hy & _).
  now split.
Defined.

(* ------------------------------------------------------------------ *)
(** ** The exceptions of [generate_entries] *)

Lemma roz_ok {A : Type} (a : A) : raises_only_zero_division (Ok a).
Proof. intros e H. discriminate. Qed.

Lemma roz_bind {A B : Type} (m : result A) (k : A -> result B) :
  raises_only_zero_division m ->
  (forall a, m = Ok a -> raises_only_zero_division (k a)) ->
  raises_only_zero_division (bind m k).
Proof.
  intros Hm Hk e H. destruct m as [a | e']; simpl in H.
  - exact (Hk a eq_refl e H).
  - injection H as <-. now apply Hm.
Qed.

Lemma roz_truediv (x y : R) : raises_only_zero_division (truediv x y).
Proof.
  intros e. unfold truediv. destruct (Req_dec_T y 0); [| discriminate].
  intros H. now injection H as <-.
Qed.

Lemma roz_pymod (x : R) : raises_only_zero_division (pymod x 360).
Proof. rewrite pymod_360. apply roz_ok. Qed.

Lemma roz_for_each {A B : Type} (body : A -> result B) (xs : list A) :
  (forall x, In x xs -> raises_only_zero_division (body x)) ->
  raises_only_zero_division (for_each body xs).
Proof.
  induction xs as [| x rest IH]; intros Hb; simpl; [apply roz_ok |].
  apply roz_bind; [apply Hb; now left |]. intros y _.
  apply roz_bind; [apply IH; intros; apply Hb; now right |]. intros ys _.
  apply roz_ok.
Qed.

Ltac roz :=
  repeat first
    [ apply roz_ok
    | apply roz_truediv
    | apply roz_pymod
    | apply roz_bind; [| intros ? _]
    | match goal with
      | |- raises_only_zero_division (let '(_, _) := ?p in _) => destruct p
      | |- raises_only_zero_division (if ?c then _ else _) => destruct c
      end ].

Lemma roz_offset (d_m angle_deg lat_c : R) :
  raises_only_zero_division (meters_to_latlon_offset d_m angle_deg lat_c).
Proof. unfold meters_to_latlon_offset. roz. Qed.

Lemma roz_speed (p : SpeedProfile.t) (tm : R) :
  raises_only_zero_division (SpeedProfile.speed p tm).
Proof. unfold SpeedProfile.speed. roz. Qed.

Lemma roz_height (p : AltitudeProfile.t) (tm : R) :
  raises_only_zero_division (height p tm).
Proof. unfold height. roz. Qed.

Lemma roz_roll (g : GimbalProfile.t) (tm : R) :
  raises_only_zero_division (GimbalProfile.roll g tm).
Proof. unfold GimbalProfile.roll. roz. Qed.

Lemma roz_pitch (g : GimbalProfile.t) (tm : R) :
  raises_only_zero_division (GimbalProfile.pitch g tm).
Proof. unfold GimbalProfile.pitch. roz. Qed.

Lemma roz_yaw (g : GimbalProfile.t) (heading tm : R) :
  raises_only_zero_division (GimbalProfile.yaw g heading tm).
Proof. unfold GimbalProfile.yaw. roz. Qed.

Lemma roz_zoom (z : ZoomProfile.t) (tm : R) :
  raises_only_zero_division (zoom_factor z tm).
Proof. unfold zoom_factor. roz. Qed.

Lemma pad_tail_ok (total : Z) (out : list Waypoint) :
  (out = [] -> (total <= 0)%Z) -> exists pts, pad_tail total out = Ok pts.
Proof.
  intros Hout.
  destruct (Z_lt_dec (Z.of_nat (List.length out)) total) as [Hlt | Hge].
  - destruct (last_item_nonempty out) as [w Hw].
    + intros Hnil. specialize (Hout Hnil). subst out. simpl in Hlt. lia.
    + eexists. exact (pad_tail_spec total _ out w Hw eq_refl).
  - eexists. apply pad_tail_full. lia.
Qed.

(** The triangle never indexes out of range: its vertex list has three
    items and the padding always finds a last waypoint to repeat. *)
Lemma roz_gen_triangle (cfg : FlightConfig.t) :
  raises_only_zero_division (gen_triangle cfg).
Proof.
  unfold gen_triangle. fold (pts_per_edge cfg).
  apply roz_bind.
  { apply roz_for_each. intros k _. roz. }
  intros verts Hverts.
  apply for_each_length in Hverts. rewrite range_length in Hverts.
  assert (Hitem : forall i, (0 <= i < 3)%Z -> exists v, item verts i = Ok v).
  { intros i Hi. unfold item.
    destruct (nth_error verts (Z.to_nat i)) as [v |] eqn:Hv; [eauto |].
    apply nth_error_None in Hv. lia. }
  apply roz_bind.
  { apply roz_for_each. intros e He. apply range_In in He.
    destruct (Hitem e He) as [[lat1 lon1] ->]. cbn [bind].
    destruct (Hitem ((e + 1) mod 3)%Z) as [[lat2 lon2] ->];
      [apply Z.mod_pos_bound; lia |]. cbn [bind].
    apply roz_for_each. intros j _. roz. }
  intros edges Hedges.
  apply (for_each_concat_length _ (Z.to_nat (pts_per_edge cfg))) in Hedges.
  - rewrite range_length in Hedges. change (Z.to_nat 3) with 3%nat in Hedges.
    destruct (pad_tail_ok (total_pts cfg) (List.concat edges)) as [pts ->];
      [| apply roz_ok].
    intros Hnil. rewrite Hnil in Hedges. simpl in Hedges.
    destruct (Z_le_gt_dec (total_pts cfg) 0) as [Hle | Hgt]; [exact Hle |].
    exfalso.
    assert (Hq : (0 <= total_pts cfg / 3)%Z) by (apply Z.div_pos; lia).
    unfold pts_per_edge, or_else in Hedges.
    destruct (Z.eqb_spec (total_pts cfg / 3) 0); lia.
  - intros e ys _ He.
    bind_named He v1 Hv1. destruct v1 as [lat1 lon1].
    bind_named He v2 Hv2. destruct v2 as [lat2 lon2].
    apply for_each_length in He. now rewrite range_length in He.
Qed.

Lemma roz_entries_loop (cfg : FlightConfig.t) (start_time : datetime)
    (path_pts : list Waypoint) :
  forall (i : Z) (flight_dist : R),
    raises_only_zero_division (entries_loop cfg start_time i flight_dist path_pts).
Proof.
  induction path_pts as [| [[lat lon] heading] rest IH]; intros i fd; simpl.
  - apply roz_ok.
  - apply roz_bind; [apply roz_truediv |]. intros tq _.
    apply roz_bind; [apply roz_speed |]. intros s _.
    apply roz_bind; [apply roz_truediv |]. intros step _.
    apply roz_bind; [apply roz_height |]. intros h _.
    apply roz_bind; [apply roz_roll |]. intros r1 _.
    apply roz_bind; [apply roz_pitch |]. intros p _.
    apply roz_bind; [apply roz_roll |]. intros r2 _.
    apply roz_bind; [apply roz_yaw |]. intros y _.
    apply roz_bind; [apply roz_zoom |]. intros z _.
    apply roz_bind; [apply IH |]. intros es _. apply roz_ok.
Qed.

(** X25. [generate_entries] never raises [IndexError]: the triangle
    indexes a vertex list that always has its three items, and its padding
    loop reads [out[-1]] only of an output that is not empty. *)
Theorem generate_entries_never_IndexError
    (cfg : FlightConfig.t) (w w' : World) (e : exn) :
  generate_entries cfg w = (Raise e, w') ->
  e <> IndexError.
Proof.
  unfold generate_entries.
  destruct (getitem PATHS (path_type cfg)) as [gen | e0] eqn:Hget.
  - intros H.
    assert (Hgen : raises_only_zero_division (gen cfg)).
    { apply getitem_PATHS_inv in Hget as [[_ ->] | [[_ ->] | [[_ ->] | [_ ->]]]].
      - unfold gen_circle. apply roz_for_each. intros i _. roz.
      - unfold gen_straight. roz. apply roz_for_each. intros i _. roz.
      - apply roz_gen_triangle.
      - unfold gen_hover. roz. }
    assert (He : e = ZeroDivisionError).
    { destruct (gen cfg) as [pts | e1].
      - simpl in H. injection H as H _. now apply roz_entries_loop in H.
      - injection H as <- _. now apply Hgen. }
    rewrite He. discriminate.
  - intros H. injection H as <- _.
    destruct (in_dec string_dec (path_type cfg)
                ["circle"; "straight"; "triangle"; "hover"]%string) as [Hin | Hout].
    + exfalso. simpl in Hin.
      destruct Hin as [Hp | [Hp | [Hp | [Hp | []]]]];
        rewrite <- Hp in Hget; discriminate.
    + rewrite (getitem_PATHS_unknown _ Hout) in Hget. injection Hget as <-.
      discriminate.
Qed.

Lemma zoom_zero_period_raises :
  generate_entries zero_period_config (frozen_world 0%Z)
  = (Raise ZeroDivisionError,
     mkWorld (clock (frozen_world 0%Z)) (S (reads (frozen_world 0%Z)))).
Proof.
  unfold generate_entries, zero_period_config. simpl getitem. cbv iota.
  unfold gen_hover. rewrite pymod_360. simpl.
  rewrite truediv_ok by lra. cbn [bind].
  rewrite speed_ok by (simpl; lra). cbn [bind].
  rewrite truediv_ok by lra. cbn [bind].
  unfold height. destruct (Rle_dec (0 / 1) 0) as [_ | H]; [| lra]. cbn [bind].
  unfold GimbalProfile.roll. simpl GimbalProfile.roll_period.
  rewrite truediv_ok by lra. cbn [bind].
  unfold GimbalProfile.pitch, GimbalProfile.yaw. simpl.
  rewrite pymod_360. cbn [bind].
  unfold zoom_factor. simpl. rewrite truediv_zero. reflexivity.
Defined.

Lemma generate_entries_never_IndexError_witness :
  ZeroDivisionError <> IndexError.
Proof.
  exact (generate_entries_never_IndexError zero_period_config (frozen_world 0%Z) _ _
           zoom_zero_period_raises).
Defined.

(** X26. With the sample rate 0 no sample fits into the duration, and the
    path types part ways.  The circle and the hover return the empty
    sequence, after one clock read.  The straight path raises
    [ZeroDivisionError] on its step size, before the clock is read.  The
    triangle still produces its three waypoints, so the loop raises
    [ZeroDivisionError] on the time of the first one, after the clock was
    read. *)
Theorem zero_sample_rate (cfg : FlightConfig.t) (w : World) :
  hz cfg = 0%Z ->
  (path_type cfg = "circle"%string \/ path_type cfg = "hover"%string ->
   generate_entries cfg w = (Ok [], mkWorld (clock w) (S (reads w)))) /\
  (path_type cfg = "straight"%string ->
   generate_entries cfg w = (Raise ZeroDivisionError, w)) /\
  (path_type cfg = "triangle"%string ->
   cos (math_radians (center_lat cfg)) <> 0 ->
   generate_entries cfg w
   = (Raise ZeroDivisionError, mkWorld (clock w) (S (reads w)))).
Proof.
  intros Hhz.
  assert (Htot : total_pts cfg = 0%Z) by (unfold total_pts; rewrite Hhz; lia).
  unfold generate_entries. split; [| split].
  - intros [Hp | Hp]; rewrite Hp; simpl getitem; cbv iota.
    + unfold gen_circle. rewrite Htot. reflexivity.
    + unfold gen_hover. rewrite pymod_360, Htot. reflexivity.
  - intros Hp. rewrite Hp. simpl getitem. cbv iota.
    unfold gen_straight. rewrite Htot, truediv_zero. reflexivity.
  - intros Hp Hc. rewrite Hp. simpl getitem. cbv iota.
    destruct (gen_triangle_total cfg Hc) as [pts Hpts]. rewrite Hpts.
    pose proof (gen_triangle_length cfg pts Hpts ltac:(lia)) as Hlen.
    rewrite Htot in Hlen. unfold pts_per_edge in Hlen. rewrite Htot in Hlen.
    simpl in Hlen.
    destruct pts as [| [[lat lon] heading] rest]; [simpl in Hlen; lia |].
    simpl. rewrite Hhz, truediv_zero. reflexivity.
Qed.

Lemma zero_sample_rate_witness :
  generate_entries (sample_config "triangle" 120 0 90) (frozen_world 0%Z)
  = (Raise ZeroDivisionError,
     mkWorld (clock (frozen_world 0%Z)) (S (reads (frozen_world 0%Z)))).
Proof.
  destruct (zero_sample_rate (sample_config "triangle" 120 0 90) (frozen_world 0%Z)
              eq_refl) as (_ & _ & Htri).
  exact (Htri eq_refl cos_radians_0).
Defined.

(** X27. With a speed amplitude of zero the flight distance does not depend
    on the path: entry [k] of a returned sequence reports
    [(k + 1) * base / hz] to within the field's resolution, 0.1.  The first
    entry already counts one step, and a hover reports a growing distance
    as well. *)
Theorem flight_distance_at_constant_speed (cfg : FlightConfig.t) (w w' : World)
    (es : list Entry.t) (k : nat) (e : Entry.t) :
  SpeedProfile.sine_amp (speed cfg) = 0 ->
  generate_entries cfg w = (Ok es, w') ->
  nth_error es k = Some e ->
  Rabs (Entry.flight_distance e
        - IZR (Z.of_nat k + 1) * (SpeedProfile.base (speed cfg) / IZR (hz cfg)))
  < 1 / 10.
Proof.
  intros Ha H Hk.
  apply generate_entries_inv in H as (gen & pts & _ & _ & Hloop & _).
  destruct (entries_loop_distance _ _ _ _ _ _ Hloop k e Hk) as [Hd _].
  rewrite Hd, Rplus_0_l, sum_steps_constant_speed by assumption.
  rewrite Nat2Z.inj_succ. unfold Z.succ.
  pose proof (round_error
                (IZR (Z.of_nat k + 1) * (SpeedProfile.base (speed cfg) / IZR (hz cfg)))
                1) as Hr.
  cbn [pow] in Hr. lra.
Qed.

Lemma flight_distance_at_constant_speed_witness :
  exists es,
    fst (generate_entries (sample_config "hover" 3 2 90) (frozen_world 0%Z)) = Ok es /\
    forall e, nth_error es 5 = Some e ->
      Rabs (Entry.flight_distance e - IZR (5 + 1) * (5 / IZR 2)) < 1 / 10.
Proof.
  destruct sample_run as [es Hes]. exists es. split; [now rewrite Hes |].
  intros e He.
  exact (flight_distance_at_constant_speed (sample_config "hover" 3 2 90) _ _
           es 5 e eq_refl Hes He).
Defined.

(* ------------------------------------------------------------------ *)
(** * Properties of [build_config] *)

(** X28. Whatever the namespace, a configuration that [build_config]
    returns keeps the path type, duration and sample rate it was given and
    the default speed and roll settings, which no option reaches: its speed
    is 5 at every time and its roll never raises and stays within 5. *)
Theorem build_config_speed_and_roll
    (float_of : string -> option R) (ns : Namespace.t) (cfg : FlightConfig.t) :
  build_config float_of ns = Built cfg ->
  path_type cfg = Namespace.path ns /\
  duration cfg = Namespace.duration ns /\
  hz cfg = Namespace.hz ns /\
  (forall tm, SpeedProfile.speed (speed cfg) tm = Ok 5) /\
  (forall tm, exists r, GimbalProfile.roll (gimbal cfg) tm = Ok r /\ Rabs r <= 5).
Proof.
  unfold build_config. intros H.
  destruct (parse_pair _ _ (Namespace.center ns) _) as [[clat clon] |];
    [| discriminate].
  destruct (parse_pair _ _ (Namespace.start ns) _) as [[slat slon] |];
    [| discriminate].
  injection H as <-. simpl.
  split; [reflexivity |]. split; [reflexivity |]. split; [reflexivity |]. split.
  - intros tm. rewrite speed_ok by (simpl; lra). simpl. f_equal. ring.
  - intros tm. unfold GimbalProfile.roll. simpl.
    rewrite truediv_ok by lra. cbn [bind].
    eexists. split; [reflexivity |]. apply Rabs_le.
    pose proof (amp_sin_bound 5 (2 * PI * tm / 40)) as Hb.
    rewrite (Rabs_right 5) in Hb by lra. lra.
Qed.

Lemma build_config_speed_and_roll_witness :
  exists cfg,
    build_config (fun _ => None)
      (geometry_namespace "hover" 60 2 None None None None (Some 0)) = Built cfg /\
    SpeedProfile.speed (speed cfg) 17 = Ok 5.
Proof.
  eexists. split; [reflexivity |].
  refine (proj1 (proj2 (proj2 (proj2
    (build_config_speed_and_roll (fun _ => None)
       (geometry_namespace "hover" 60 2 None None None None (Some 0)) _ eq_refl))))
    17).
Defined.

(** X29. [build_config] tests the radius and the triangle edge for truth
    and the bearing for [None]: a radius or an edge of 0 is dropped and the
    default (60, 120) stays, a circle's radius other than 0 is taken, and a
    bearing of a straight or hover path is taken whatever it is, 0
    included. *)
Theorem build_config_zero_options
    (float_of : string -> option R) (ns : Namespace.t) (cfg : FlightConfig.t) :
  build_config float_of ns = Built cfg ->
  (Namespace.radius ns = Some 0 -> radius_m cfg = 60) /\
  (Namespace.tri_edge ns = Some 0 -> tri_edge_m cfg = 120) /\
  (forall r, Namespace.path ns = "circle"%string ->
     Namespace.radius ns = Some r -> r <> 0 -> radius_m cfg = r) /\
  (forall b,
     Namespace.path ns = "straight"%string \/ Namespace.path ns = "hover"%string ->
     Namespace.bearing ns = Some b -> bearing_deg cfg = b).
Proof.
  unfold build_config. intros H.
  destruct (parse_pair _ _ (Namespace.center ns) _) as [[clat clon] |];
    [| discriminate].
  destruct (parse_pair _ _ (Namespace.start ns) _) as [[slat slon] |];
    [| discriminate].
  injection H as <-. simpl.
  assert (Hzero : truthy_float (Some 0) = None).
  { unfold truthy_float. destruct (Req_dec_T 0 0) as [_ | Hn]; [reflexivity | lra]. }
  split; [| split; [| split]].
  - intros ->. rewrite Hzero. simpl. now destruct (_ =? _)%string.
  - intros ->. rewrite Hzero. simpl. now destruct (_ =? _)%string.
  - intros r -> -> Hr. simpl. unfold truthy_float.
    destruct (Req_dec_T r 0); [contradiction | reflexivity].
  - intros b [-> | ->] ->; reflexivity.
Qed.

Lemma build_config_zero_options_witness :
  exists cfg,
    build_config (fun _ => None)
      (geometry_namespace "circle" 60 2 None (Some 0) None None None) = Built cfg /\
    radius_m cfg = 60.
Proof.
  destruct (build_config (fun _ => None)
              (geometry_namespace "circle" 60 2 None (Some 0) None None None))
    as [cfg |] eqn:Hb.
  - exists cfg. split; [reflexivity |].
    exact (proj1 (build_config_zero_options _ _ cfg Hb) eq_refl).
  - exfalso. unfold build_config in Hb. simpl in Hb. discriminate.
Defined.

Lemma parse_pair_none (float_of : string -> option R) (applies : bool)
    (text : option string) (current : R * R) :
  parse_pair float_of applies text current = None ->
  applies = true /\
  exists s, text = Some s /\ s <> EmptyString /\
            unpack_floats float_of (split_comma s) = None.
Proof.
  unfold parse_pair. destruct applies; [| discriminate].
  destruct text as [[| c s] |]; simpl; try discriminate.
  intros H. split; [reflexivity |]. exists (String c s). now repeat split.
Qed.

(** X30. [build_config] raises [ValueError] only on a coordinate pair that
    applies to the path type: a non-empty centre of a circle or triangle,
    or a non-empty start of a straight or hover path, that does not split
    into two floats.  It does not check the path type: with one outside the
    four it returns a configuration, on which [generate_entries] then
    raises [KeyError]. *)
Theorem build_config_errors
    (float_of : string -> option R) (ns : Namespace.t) (w : World) :
  (build_config float_of ns = ValueError ->
   ((Namespace.path ns = "circle"%string \/ Namespace.path ns = "triangle"%string) /\
    exists s, Namespace.center ns = Some s /\ s <> EmptyString /\
              unpack_floats float_of (split_comma s) = None) \/
   ((Namespace.path ns = "straight"%string \/ Namespace.path ns = "hover"%string) /\
    exists s, Namespace.start ns = Some s /\ s <> EmptyString /\
              unpack_floats float_of (split_comma s) = None)) /\
  (~ In (Namespace.path ns) ["circle"; "straight"; "triangle"; "hover"]%string ->
   exists cfg,
     build_config float_of ns = Built cfg /\
     generate_entries cfg w = (Raise (KeyError (Namespace.path ns)), w)).
Proof.
  split.
  - unfold build_config. simpl.
    destruct (parse_pair _ _ (Namespace.center ns) _) as [[clat clon] |] eqn:Hc.
    + destruct (parse_pair _ _ (Namespace.start ns) _) as [[slat slon] |] eqn:Hs;
        [discriminate |].
      intros _. right. apply parse_pair_none in Hs as [Happ Hs].
      split; [| exact Hs].
      apply orb_true_iff in Happ as [Hp | Hp]; apply String.eqb_eq in Hp; auto.
    + intros _. left. apply parse_pair_none in Hc as [Happ Hc].
      split; [| exact Hc].
      apply orb_true_iff in Happ as [Hp | Hp]; apply String.eqb_eq in Hp; auto.
  - intros Hout.
    assert (Hne : forall p, In p ["circle"; "straight"; "triangle"; "hover"]%string ->
                            (Namespace.path ns =? p)%string = false).
    { intros p Hp. apply String.eqb_neq. intros Heq. apply Hout. now rewrite Heq. }
    unfold build_config. simpl.
    rewrite !Hne by (simpl; tauto). simpl.
    eexists. split; [reflexivity |].
    unfold generate_entries. simpl path_type.
    now rewrite (getitem_PATHS_unknown _ Hout).
Qed.

Lemma split_comma_pair :
  split_comma "45.5,-122.7" = ["45.5"; "-122.7"]%string /\
  split_comma "45.5" = ["45.5"]%string /\
  split_comma "1,2,3" = ["1"; "2"; "3"]%string /\
  split_comma "" = [""]%string.
Proof. repeat split. Qed.

Lemma build_config_errors_witness :
  exists cfg,
    build_config (fun _ => None)
      (geometry_namespace "spiral" 60 2 (Some "north"%string) None None None None)
    = Built cfg /\
    generate_entries cfg (frozen_world 0%Z)
    = (Raise (KeyError "spiral"), frozen_world 0%Z).
Proof.
  apply (build_config_errors (fun _ => None)
           (geometry_namespace "spiral" 60 2 (Some "north"%string) None None None None)
           (frozen_world 0%Z)).
  simpl. intros [H | [H | [H | [H | []]]]]; discriminate.
Defined.
